(** * otaku-wireframe: the authenticated HTTP client, the session context,
      the route guard and the topic page, embedded from the TypeScript source.

    Sources embedded here:
    - [services/api.ts]            the axios instance [api] and its two interceptors;
    - [contexts/AuthContext.tsx]   [AuthProvider]: [logout] and the derived role flags;
    - [components/PrivateRoute.tsx] the route guard;
    - [pages/TopicDetail.tsx]      [handleSubmitReply] and the reply pane of the view.

    The browser and the axios library are the environment: [localStorage] is a
    finite map from keys to strings, the network is an oracle that answers a
    call from the history of calls made so far, and a promise is the value it
    settles to. *)

From Stdlib Require Import ZArith.
From stdpp Require Import gmap strings list fin_maps pretty sorting.

Local Open Scope string_scope.
Local Open Scope list_scope.

(** ** JavaScript values the code inspects *)

Module Js.

(** The values a JSON field read by the client can hold, as far as the code
    tells them apart: it only ever converts them to a string. *)
Inductive Val :=
| Undefined
| Null
| Str (s : string).

(** [ToString], as applied by a template literal and by
    [localStorage.setItem]. *)
Definition to_string (v : Val) : string :=
  match v with
  | Undefined => "undefined"
  | Null => "null"
  | Str s => s
  end.

(** Truthiness of a string: every string but the empty one. *)
Definition truthy_string (s : string) : bool :=
  match s with
  | EmptyString => false
  | String _ _ => true
  end.

(** Truthiness of [string | null], the result of [localStorage.getItem]. *)
Definition truthy (o : option string) : bool :=
  match o with
  | Some s => truthy_string s
  | None => false
  end.

(** An object as far as property reads go; reading a missing property
    gives [undefined]. *)
Definition get (o : gmap string Val) (k : string) : Val :=
  default Undefined (o !! k).

(** White space removed by [String.prototype.trim], for strings of code
    units below 256: TAB, LF, VT, FF, CR, SPACE and NBSP. *)
Definition is_white_space (c : Ascii.ascii) : bool :=
  let n := Ascii.nat_of_ascii c in
  (Nat.leb 9 n && Nat.leb n 13) || Nat.eqb n 32 || Nat.eqb n 160.

Fixpoint trim_start (s : string) : string :=
  match s with
  | EmptyString => EmptyString
  | String c r => if is_white_space c then trim_start r else s
  end.

Fixpoint trim_end (s : string) : string :=
  match s with
  | EmptyString => EmptyString
  | String c r =>
      match trim_end r with
      | EmptyString => if is_white_space c then EmptyString else String c EmptyString
      | r' => String c r'
      end
  end.

Definition trim (s : string) : string := trim_end (trim_start s).

End Js.

(** ** The browser: storage, location, notifications, network *)

(** The argument of [toast({ title, description, variant })]. *)
Record Toast := mkToast {
  title : string;
  description : string;
  variant : option string
}.

(** An axios request configuration, with the [_retry] extension of
    [ExtendedAxiosRequestConfig] ([undefined] reads as [false]). *)
Record Config := mkConfig {
  url : string;
  method : string;
  headers : gmap string string;
  _retry : bool
}.

(** What the client reads of a response: the status and the body, [None]
    for a [null] or [undefined] body, otherwise its string-keyed fields. *)
Record Response := mkResponse {
  status : Z;
  data : option (gmap string Js.Val)
}.

(** Which axios instance sent a request: [api] (with the interceptors) or the
    global [axios] (without). *)
Inductive Instance := ApiInstance | GlobalAxios.

#[global] Instance Instance_eq_dec : EqDecision Instance.
Proof. solve_decision. Defined.

(** One request put on the wire. *)
Record WireCall := mkCall {
  via : Instance;
  sent : Config
}.

(** What comes back: a response with some status, or nothing (transport
    failure, where [error.response] is [undefined]). *)
Inductive WireReply :=
| Answered (r : Response)
| NoAnswer.

(** The backend and the transport, as a function of the calls made before. *)
Definition Server := list WireCall → WireCall → WireReply.

(** [AxiosError]: [error.response] and [error.config]. *)
Record AxiosError := mkError {
  response : option Response;
  config : option Config
}.

(** What a promise of the client can reject with. *)
Inductive Thrown :=
| AxiosErr (e : AxiosError)
| TypeError.

(** A settled promise of a response. *)
Inductive Settled :=
| Fulfilled (r : Response)
| RejectedWith (t : Thrown).

(** The mutable world of one browser tab.  [location_href] and [toasts] list
    the assignments to [window.location.href] and the calls of [toast], oldest
    first; [wire] lists the requests sent. *)
Record World := mkWorld {
  localStorage : gmap string string;
  location_href : list string;
  toasts : list Toast;
  wire : list WireCall
}.

(** A state monad over [World]. *)
Definition M (A : Type) : Type := World → A * World.

Definition ret {A} (a : A) : M A := λ w, (a, w).

Definition bind {A B} (m : M A) (k : A → M B) : M B :=
  λ w, let '(a, w') := m w in k a w'.

Notation "'let*' x ':=' m 'in' k" := (bind m (λ x, k))
  (at level 10, x name, m at level 100, k at level 200).
Notation "'run' m 'then' k" := (bind m (λ _, k))
  (at level 10, m at level 100, k at level 200).

Definition getItem (k : string) : M (option string) :=
  λ w, (localStorage w !! k, w).

Definition setItem (k v : string) : M unit :=
  λ w, (tt, mkWorld (<[k := v]> (localStorage w)) (location_href w) (toasts w) (wire w)).

Definition removeItem (k : string) : M unit :=
  λ w, (tt, mkWorld (delete k (localStorage w)) (location_href w) (toasts w) (wire w)).

Definition set_location_href (target : string) : M unit :=
  λ w, (tt, mkWorld (localStorage w) (location_href w ++ [target]) (toasts w) (wire w)).

Definition toast (t : Toast) : M unit :=
  λ w, (tt, mkWorld (localStorage w) (location_href w) (toasts w ++ [t]) (wire w)).

(** ** services/api.ts: the axios instance and its interceptors *)

Definition BASE_URL : string := "http://localhost:5000/api/v1".

Definition set_header (k v : string) (c : Config) : Config :=
  mkConfig (url c) (method c) (<[k := v]> (headers c)) (_retry c).

Definition set_retry (b : bool) (c : Config) : Config :=
  mkConfig (url c) (method c) (headers c) b.

(** [axios.create({ baseURL, headers: { 'Content-Type': 'application/json' } })]:
    the instance defaults are merged under the headers of each request. *)
Definition merge_defaults (c : Config) : Config :=
  mkConfig (url c) (method c)
    (headers c ∪ {["Content-Type" := "application/json"]}) (_retry c).

(** [api.interceptors.request.use((config) => ...)]. *)
Definition request_interceptor (config : Config) : M Config :=
  let* token := getItem "access_token" in
  match token with
  | Some token =>
      if Js.truthy_string token
      then ret (set_header "Authorization" ("Bearer " +:+ token) config)
      else ret config
  | None => ret config
  end.

(** The request of [axios.post(`${BASE_URL}/auth/refresh`, {},
    { headers: { Authorization: `Bearer ${refreshToken}` } })]. *)
Definition refresh_request (refreshToken : string) : Config :=
  mkConfig (BASE_URL +:+ "/auth/refresh") "post"
    {["Authorization" := "Bearer " +:+ refreshToken]} false.

(** The default [validateStatus] of axios: a promise resolves on 2xx only. *)
Definition validateStatus (s : Z) : bool := ((200 <=? s) && (s <? 300))%Z.

Definition access_denied : Toast :=
  mkToast "Access Denied"
          "You don't have permission to perform this action."
          (Some "destructive").

Definition server_error : Toast :=
  mkToast "Server Error"
          "Something went wrong on our end. Please try again later."
          (Some "destructive").

(** [error.response?.status === n] and [error.response?.status >= n]; both
    are false when there is no response. *)
Definition status_is (error : AxiosError) (n : Z) : bool :=
  match response error with
  | Some r => (status r =? n)%Z
  | None => false
  end.

Definition status_ge (error : AxiosError) (n : Z) : bool :=
  match response error with
  | Some r => (n <=? status r)%Z
  | None => false
  end.

(** How control leaves the [try] block of the response interceptor. *)
Inductive TryExit :=
| Returned (p : option Settled)
| Threw (t : Thrown)
| FellThrough.

Section Client.

Variable server : Server.

(** The adapter: put the request on the wire and settle on the reply. *)
Definition send (inst : Instance) (cfg : Config) : M (Response + AxiosError) :=
  λ w,
    let call := mkCall inst cfg in
    let w' := mkWorld (localStorage w) (location_href w) (toasts w) (wire w ++ [call]) in
    match server (wire w) call with
    | Answered r =>
        if validateStatus (status r)
        then (inl r, w')
        else (inr (mkError (Some r) (Some cfg)), w')
    | NoAnswer => (inr (mkError None (Some cfg)), w')
    end.

(** The body of [try { ... }]: the call of the global [axios.post] on the
    refresh endpoint, the write of the new token and the replay.  The replay
    is returned without [await], so its rejection is not caught. *)
Definition refresh_and_replay (api : Config → M (option Settled))
    (originalRequest : Config) : M TryExit :=
  let* refreshToken := getItem "refresh_token" in
  match refreshToken with
  | Some refreshToken =>
      if Js.truthy_string refreshToken then
        let* r := send GlobalAxios (refresh_request refreshToken) in
        match r with
        | inr refreshError => ret (Threw (AxiosErr refreshError))
        | inl response =>
            match data response with
            | None => ret (Threw TypeError)
            | Some body =>
                let access_token := Js.to_string (Js.get body "access_token") in
                run setItem "access_token" access_token then
                let* p := api (set_header "Authorization"
                                 ("Bearer " +:+ access_token) originalRequest) in
                ret (Returned p)
            end
        end
      else ret FellThrough
  | None => ret FellThrough
  end.

(** The tail of the interceptor, under [// Handle different error types]. *)
Definition handle_error_types (error : AxiosError) : M (option Settled) :=
  run (if status_is error 403 then toast access_denied
       else if status_ge error 500 then toast server_error
       else ret tt) then
  ret (Some (RejectedWith (AxiosErr error))).

(** [api.interceptors.response.use((response) => response, async (error) => ...)],
    the rejection handler.  [originalRequest] is [error.config] itself, so
    setting [_retry] on it shows in the error that is rejected later. *)
Definition response_error_interceptor (api : Config → M (option Settled))
    (error : AxiosError) : M (option Settled) :=
  match config error with
  | Some originalRequest =>
      if status_is error 401 && negb (_retry originalRequest) then
        let originalRequest := set_retry true originalRequest in
        let error := mkError (response error) (Some originalRequest) in
        let* exit := refresh_and_replay api originalRequest in
        match exit with
        | Returned p => ret p
        | Threw refreshError =>
            run removeItem "access_token" then
            run removeItem "refresh_token" then
            run set_location_href "/login" then
            ret (Some (RejectedWith refreshError))
        | FellThrough => handle_error_types error
        end
      else handle_error_types error
  | None => handle_error_types error
  end.

(** [api(config)]: request interceptor, adapter, response interceptors.  The
    interceptor calls [api] again for the replay; [fuel] bounds that nesting
    and [None] is a promise still pending when it runs out. *)
Fixpoint api (fuel : nat) (config : Config) : M (option Settled) :=
  match fuel with
  | O => ret None
  | S fuel' =>
      let* config := request_interceptor (merge_defaults config) in
      let* r := send ApiInstance config in
      match r with
      | inl response => ret (Some (Fulfilled response))
      | inr error => response_error_interceptor (api fuel') error
      end
  end.

End Client.

(** ** types/index.ts *)

(** ['user' | 'moderator' | 'admin']. *)
Inductive Role := RoleUser | RoleModerator | RoleAdmin.

Module User.
Record t := mk {
  id : Z;
  username : string;
  email : string;
  bio : option string;
  location : option string;
  website : option string;
  avatar_url : option string;
  cover_image_url : option string;
  role : Role;
  created_at : string;
  is_active : bool
}.
End User.

Module Topic.
Record t := mk {
  id : Z;
  title : string;
  content : string;
  category : string;
  views : Z;
  replies_count : Z;
  is_pinned : bool;
  is_locked : bool;
  author : User.t;
  created_at : string;
  updated_at : string;
  last_reply : option (User.t * string)
}.
End Topic.

Module Reply.
Record t := mk {
  id : Z;
  content : string;
  author : User.t;
  created_at : string;
  updated_at : string;
  topic_id : Z
}.
End Reply.

Module Article.
Record t := mk {
  id : Z;
  title : string;
  content : string;
  excerpt : option string;
  category : string;
  featured : bool;
  published : bool;
  views : Z;
  likes : Z;
  user_liked : bool;
  image_url : option string;
  author : User.t;
  created_at : string;
  updated_at : string
}.
End Article.

Module Comment.
#[warnings="-register-all"]
Inductive t := mk {
  id : Z;
  content : string;
  likes : Z;
  user_liked : bool;
  author : User.t;
  created_at : string;
  updated_at : string;
  article_id : Z;
  parent_id : option Z;
  replies : list t
}.
End Comment.

(** ** Promises, resource clients and what a page does *)

(** A promise as the code awaiting it sees it: never settled, resolved with
    a value, or rejected. *)
Inductive Promise (A : Type) :=
| Pending
| Resolved (a : A)
| Rejected (t : Thrown).

Arguments Pending {A}.
Arguments Resolved {A}.
Arguments Rejected {A}.

(** [error.response?.data?.message] for a caught value. *)
Definition response_message (error : Thrown) : Js.Val :=
  match error with
  | AxiosErr e =>
      match response e with
      | Some r =>
          match data r with
          | Some body => Js.get body "message"
          | None => Js.Undefined
          end
      | None => Js.Undefined
      end
  | TypeError => Js.Undefined
  end.

(** [v || fallback], as the text a toast shows. *)
Definition or_else (v : Js.Val) (fallback : string) : string :=
  match v with
  | Js.Str s => if Js.truthy_string s then s else fallback
  | Js.Undefined | Js.Null => fallback
  end.

(** A call of one of the resource clients of [services/api.ts] made by a
    page, with its arguments. *)
Inductive ClientCall :=
| CallDeleteTopic (id : Z)
| CallCreateTopic (data : gmap string string)
| CallLikeArticle (id : Z)
| CallCreateComment (content : string) (article_id : Z)
| CallReplyToComment (id : Z) (content : string)
| CallLikeComment (id : Z)
| CallDeleteComment (id : Z).

(** What a handler of a page did besides setting state, each list oldest
    first: toasts shown, [navigate] targets, [window.confirm] prompts and
    resource-client calls. *)
Record Ui := mkUi {
  ui_toasts : list Toast;
  ui_navigations : list string;
  ui_confirms : list string;
  ui_calls : list ClientCall
}.

(** The backend behind the resource clients: what each call resolves with,
    [None], [false] or [inr] when its promise rejects. *)
Record Backend := mkBackend {
  deleteTopic : Z → bool;
  createTopic : gmap string string → Topic.t + Thrown;
  likeArticle : Z → option (bool * Z);
  createComment : string → Z → option Comment.t;
  replyToComment : Z → string → option Comment.t;
  likeComment : Z → option (bool * Z);
  deleteComment : Z → bool
}.

(** ** contexts/AuthContext.tsx *)

Module AuthContext.

(** The two [useState] cells of [AuthProvider]. *)
Record State := mkState {
  user : option User.t;
  loading : bool
}.

(** [user?.role === r]: false when there is no user. *)
Definition role_is (u : option User.t) (r : Role) : bool :=
  match u with
  | Some u =>
      match User.role u, r with
      | RoleUser, RoleUser | RoleModerator, RoleModerator | RoleAdmin, RoleAdmin => true
      | _, _ => false
      end
  | None => false
  end.

(** [!!user]. *)
Definition isAuthenticated (s : State) : bool :=
  match user s with Some _ => true | None => false end.

Definition isModerator (s : State) : bool :=
  role_is (user s) RoleModerator || role_is (user s) RoleAdmin.

Definition isAdmin (s : State) : bool :=
  role_is (user s) RoleAdmin.

(** The part of [AuthContextType] that is data. *)
Record Value := mkValue {
  v_user : option User.t;
  v_loading : bool;
  v_isAuthenticated : bool;
  v_isModerator : bool;
  v_isAdmin : bool
}.

(** What [useAuth()] hands to a component rendered under the provider. *)
Definition useAuth (s : State) : Value :=
  mkValue (user s) (loading s) (isAuthenticated s) (isModerator s) (isAdmin s).

Definition logged_out : Toast :=
  mkToast "Logged out" "You have been logged out successfully." None.

(** [const logout = () => { ... }]: a plain function, nothing awaited and
    no request sent. *)
Definition logout (s : State) : M State :=
  run removeItem "access_token" then
  run removeItem "refresh_token" then
  let s := mkState None (loading s) in
  run toast logged_out then
  ret s.

Definition welcome_back : Toast :=
  mkToast "Welcome back!" "You have been logged in successfully." None.

Definition welcome : Toast :=
  mkToast "Welcome to Otaku Forum!" "Your account has been created successfully."
          None.

Definition login_failed (message : string) : Toast :=
  mkToast "Login Failed" message (Some "destructive").

Definition registration_failed (message : string) : Toast :=
  mkToast "Registration Failed" message (Some "destructive").

Section Provider.

(** The record a JSON value is taken for where the code uses it as a
    [User] (TypeScript checks nothing at run time); [None] stands for a value
    that is falsy as the current user. *)
Variable as_user : Js.Val → option User.t.

(** The three calls of [authApi] the provider makes, as computations on the
    world: [getMe] yields [response.data.user], [login] and [register] yield
    [response.data], [None] for a null body. *)
Variable authApi_getMe : M (Promise Js.Val).
Variable authApi_login : string → string → M (Promise (option (gmap string Js.Val))).
Variable authApi_register :
  string → string → string → M (Promise (option (gmap string Js.Val))).

(** [const checkAuth = async () => { try ... catch ... finally ... }].  A
    promise that never settles leaves the function at its [await]. *)
Definition checkAuth (s : State) : M State :=
  let* token := getItem "access_token" in
  if Js.truthy token then
    let* p := authApi_getMe in
    match p with
    | Pending => ret s
    | Resolved userData => ret (mkState (as_user userData) false)
    | Rejected _ =>
        run removeItem "access_token" then
        run removeItem "refresh_token" then
        ret (mkState (user s) false)
    end
  else ret (mkState (user s) false).

(** The [try] body of [login] and of [register] after the [await]: reading
    a property of a null [response] throws. *)
Definition store_session (response : option (gmap string Js.Val)) (greeting : Toast)
    (s : State) : M (State + Thrown) :=
  match response with
  | Some response =>
      run setItem "access_token" (Js.to_string (Js.get response "access_token")) then
      run setItem "refresh_token" (Js.to_string (Js.get response "refresh_token")) then
      let s := mkState (as_user (Js.get response "user")) (loading s) in
      run toast greeting then
      ret (inl s)
  | None => ret (inr TypeError)
  end.

(** [const login = async (email, password) => { ... }]: the state it leaves
    and the promise it returns. *)
Definition login (email password : string) (s : State) : M (State * Promise unit) :=
  let* p := authApi_login email password in
  let catch error :=
    run toast (login_failed (or_else (response_message error) "Login failed")) then
    ret (s, Rejected error) in
  match p with
  | Pending => ret (s, Pending)
  | Resolved response =>
      let* r := store_session response welcome_back s in
      match r with
      | inl s' => ret (s', Resolved tt)
      | inr error => catch error
      end
  | Rejected error => catch error
  end.

(** [const register = async (username, email, password) => { ... }]. *)
Definition register (username email password : string) (s : State)
    : M (State * Promise unit) :=
  let* p := authApi_register username email password in
  let catch error :=
    run toast (registration_failed
                 (or_else (response_message error) "Registration failed")) then
    ret (s, Rejected error) in
  match p with
  | Pending => ret (s, Pending)
  | Resolved response =>
      let* r := store_session response welcome s in
      match r with
      | inl s' => ret (s', Resolved tt)
      | inr error => catch error
      end
  | Rejected error => catch error
  end.

End Provider.

End AuthContext.

(** ** components/PrivateRoute.tsx *)

Module PrivateRoute.

(** [useLocation()]. *)
Record Location := mkLocation {
  pathname : string;
  search : string;
  hash : string
}.

Section Guard.

(** The type of the guarded children. *)
Variable Node : Type.

Record Props := mkProps {
  children : Node;
  requireModerator : bool;
  requireAdmin : bool
}.

(** What the component returns: the loading placeholder, a [<Navigate>]
    with its [to], [state.from] and [replace], or the children. *)
Inductive Element :=
| LoadingPlaceholder
| Navigate (to : string) (from : option Location) (replace : bool)
| Fragment (children : Node).

Definition PrivateRoute (props : Props) (auth : AuthContext.Value)
    (location : Location) : Element :=
  if AuthContext.v_loading auth then LoadingPlaceholder
  else if negb (AuthContext.v_isAuthenticated auth) then
    Navigate "/login" (Some location) true
  else if requireAdmin props && negb (AuthContext.v_isAdmin auth) then
    Navigate "/" None true
  else if requireModerator props && negb (AuthContext.v_isModerator auth) then
    Navigate "/" None true
  else Fragment (children props).

End Guard.

Arguments mkProps {Node}.
Arguments children {Node}.
Arguments requireModerator {Node}.
Arguments requireAdmin {Node}.
Arguments LoadingPlaceholder {Node}.
Arguments Navigate {Node}.
Arguments Fragment {Node}.
Arguments PrivateRoute {Node}.

End PrivateRoute.

(** ** pages/TopicDetail.tsx *)

Module TopicDetail.

(** The [useState] cells of the page that the reply form touches. *)
Record State := mkState {
  topic : option Topic.t;
  replies : list Reply.t;
  replyContent : string;
  submitting : bool
}.

(** What a run of the handler did besides setting state: the toasts shown
    and the calls of [forumApi.createReply] with their arguments. *)
Record Effects := mkEffects {
  shown : list Toast;
  createReply_calls : list (Z * string)
}.

Definition login_required : Toast :=
  mkToast "Login Required" "Please log in to reply." (Some "destructive").

Definition topic_locked : Toast :=
  mkToast "Topic Locked"
          "This topic is locked and no longer accepts replies."
          (Some "destructive").

Definition reply_posted : Toast :=
  mkToast "Success" "Reply posted successfully." None.

Definition reply_failed : Toast :=
  mkToast "Error" "Failed to post reply. Please try again." (Some "destructive").

(** [!replyContent.trim()]. *)
Definition blank (s : string) : bool := negb (Js.truthy_string (Js.trim s)).

Definition bump_replies_count (t : Topic.t) : Topic.t :=
  Topic.mk (Topic.id t) (Topic.title t) (Topic.content t) (Topic.category t)
    (Topic.views t) (Topic.replies_count t + 1) (Topic.is_pinned t)
    (Topic.is_locked t) (Topic.author t) (Topic.created_at t)
    (Topic.updated_at t) (Topic.last_reply t).

Section Handler.

(** The backend behind [forumApi.createReply(topicId, content)]: the reply
    it resolves with, or [None] when the promise rejects. *)
Variable createReply : Z → string → option Reply.t.

Definition handleSubmitReply (auth : AuthContext.Value) (st : State)
    : State * Effects :=
  match topic st with
  | Some topic =>
      if negb (AuthContext.v_isAuthenticated auth) then
        (st, mkEffects [login_required] [])
      else if blank (replyContent st) then
        (st, mkEffects [] [])
      else if Topic.is_locked topic && negb (AuthContext.v_isModerator auth) then
        (st, mkEffects [topic_locked] [])
      else
        let call := (Topic.id topic, replyContent st) in
        match createReply (Topic.id topic) (replyContent st) with
        | Some newReply =>
            (mkState (Some (bump_replies_count topic))
                     (replies st ++ [newReply]) "" false,
             mkEffects [reply_posted] [call])
        | None =>
            (mkState (Some topic) (replies st) (replyContent st) false,
             mkEffects [reply_failed] [call])
        end
  | None => (st, mkEffects [login_required] [])
  end.

End Handler.

(** The reply pane the view renders below the topic, once a topic is
    loaded: the form (with its submit button possibly disabled), the locked
    notice, or the sign-in prompt. *)
Inductive ReplyPane :=
| ReplyForm (submit_disabled : bool)
| LockedNotice
| SignInPrompt.

Definition reply_pane (auth : AuthContext.Value) (st : State) (topic : Topic.t)
    : ReplyPane :=
  if AuthContext.v_isAuthenticated auth && negb (Topic.is_locked topic) then
    ReplyForm (submitting st || blank (replyContent st))
  else if Topic.is_locked topic then LockedNotice
  else SignInPrompt.

(** [user && topic && (user.id === topic.author.id || isModerator)], as
    the condition it is used for. *)
Definition canEditTopic (auth : AuthContext.Value) (st : State) : bool :=
  match AuthContext.v_user auth, topic st with
  | Some user, Some topic =>
      (User.id user =? User.id (Topic.author topic))%Z
      || AuthContext.v_isModerator auth
  | _, _ => false
  end.

Definition canDeleteTopic (auth : AuthContext.Value) (st : State) : bool :=
  match AuthContext.v_user auth, topic st with
  | Some user, Some topic =>
      (User.id user =? User.id (Topic.author topic))%Z
      || AuthContext.v_isModerator auth
  | _, _ => false
  end.

(** The buttons in the topic header: [{canEditTopic && (<Edit/>
    {canDeleteTopic && <Delete/>})}]. *)
Inductive TopicControls := NoControls | EditOnly | EditAndDelete.

Definition topic_controls (auth : AuthContext.Value) (st : State) : TopicControls :=
  if canEditTopic auth st then
    if canDeleteTopic auth st then EditAndDelete else EditOnly
  else NoControls.

(** [(user?.id === reply.author.id || isModerator)], the condition of the
    edit and delete buttons of a reply. *)
Definition reply_controls (auth : AuthContext.Value) (reply : Reply.t) : bool :=
  match AuthContext.v_user auth with
  | Some user => (User.id user =? User.id (Reply.author reply))%Z
  | None => false
  end || AuthContext.v_isModerator auth.

Definition topic_deleted : Toast :=
  mkToast "Success" "Topic deleted successfully." None.

Definition topic_delete_failed : Toast :=
  mkToast "Error" "Failed to delete topic. Please try again." (Some "destructive").

(** [handleDeleteTopic]; [confirmed] is the answer [window.confirm] gives
    when it is asked. *)
Definition handleDeleteTopic (be : Backend) (confirmed : bool) (st : State) : Ui :=
  match topic st with
  | Some topic =>
      let asked := ["Are you sure you want to delete this topic?"] in
      if confirmed then
        if deleteTopic be (Topic.id topic)
        then mkUi [topic_deleted] ["/forum"] asked [CallDeleteTopic (Topic.id topic)]
        else mkUi [topic_delete_failed] [] asked [CallDeleteTopic (Topic.id topic)]
      else mkUi [] [] asked []
  | None => mkUi [] [] [] []
  end.

End TopicDetail.

(** ** pages/ArticleDetail.tsx *)

Module ArticleDetail.

Record State := mkState {
  article : option Article.t;
  comments : list Comment.t;
  commentContent : string;
  replyingTo : option Z;
  replyContent : string;
  submitting : bool
}.

Definition destructive (title description : string) : Toast :=
  mkToast title description (Some "destructive").

Definition success (description : string) : Toast :=
  mkToast "Success" description None.

Definition only_toast (t : Toast) : Ui := mkUi [t] [] [] [].


(** [{ ...comment, replies: [...comment.replies, newReply] }]. *)
Definition with_reply (c : Comment.t) (newReply : Comment.t) : Comment.t :=
  Comment.mk (Comment.id c) (Comment.content c) (Comment.likes c)
    (Comment.user_liked c) (Comment.author c) (Comment.created_at c)
    (Comment.updated_at c) (Comment.article_id c) (Comment.parent_id c)
    (Comment.replies c ++ [newReply]).

(** [{ ...comment, user_liked: liked, likes: likes_count }]. *)
Definition with_comment_like (c : Comment.t) (liked : bool) (likes_count : Z)
    : Comment.t :=
  Comment.mk (Comment.id c) (Comment.content c) likes_count liked
    (Comment.author c) (Comment.created_at c) (Comment.updated_at c)
    (Comment.article_id c) (Comment.parent_id c) (Comment.replies c).


Definition set_comments (cs : list Comment.t) (st : State) : State :=
  mkState (article st) cs (commentContent st) (replyingTo st)
          (replyContent st) (submitting st).

Section Handlers.

Variable be : Backend.
Variable auth : AuthContext.Value.


Definition handleSubmitComment (st : State) : State * Ui :=
  match article st with
  | Some article =>
      if negb (AuthContext.v_isAuthenticated auth) then
        (st, only_toast (destructive "Login Required" "Please log in to comment."))
      else if TopicDetail.blank (commentContent st) then
        (st, mkUi [] [] [] [])
      else
        let call := CallCreateComment (commentContent st) (Article.id article) in
        match createComment be (commentContent st) (Article.id article) with
        | Some newComment =>
            (mkState (Some article) (newComment :: comments st) ""
                     (replyingTo st) (replyContent st) false,
             mkUi [success "Comment posted successfully."] [] [] [call])
        | None =>
            (mkState (Some article) (comments st) (commentContent st)
                     (replyingTo st) (replyContent st) false,
             mkUi [destructive "Error" "Failed to post comment. Please try again."]
                  [] [] [call])
        end
  | None =>
      (st, only_toast (destructive "Login Required" "Please log in to comment."))
  end.

Definition handleReply (commentId : Z) (st : State) : State * Ui :=
  if negb (AuthContext.v_isAuthenticated auth) then
    (st, only_toast (destructive "Login Required" "Please log in to reply."))
  else if TopicDetail.blank (replyContent st) then
    (st, mkUi [] [] [] [])
  else
    let call := CallReplyToComment commentId (replyContent st) in
    match replyToComment be commentId (replyContent st) with
    | Some newReply =>
        (mkState (article st)
           (map (λ comment,
                   if (Comment.id comment =? commentId)%Z
                   then with_reply comment newReply
                   else comment)
                (comments st))
           (commentContent st) None "" false,
         mkUi [success "Reply posted successfully."] [] [] [call])
    | None =>
        (mkState (article st) (comments st) (commentContent st) (replyingTo st)
                 (replyContent st) false,
         mkUi [destructive "Error" "Failed to post reply. Please try again."]
              [] [] [call])
    end.

Definition handleLikeComment (commentId : Z) (st : State) : State * Ui :=
  if negb (AuthContext.v_isAuthenticated auth) then
    (st, only_toast (destructive "Login Required" "Please log in to like comments."))
  else
    match likeComment be commentId with
    | Some (liked, likes_count) =>
        (set_comments
           (map (λ comment,
                   if (Comment.id comment =? commentId)%Z
                   then with_comment_like comment liked likes_count
                   else comment)
                (comments st)) st,
         mkUi [] [] [] [CallLikeComment commentId])
    | None =>
        (st,
         mkUi [destructive "Error" "Failed to like comment. Please try again."]
              [] [] [CallLikeComment commentId])
    end.

(** [handleDeleteComment]; [confirmed] is the answer of [window.confirm]. *)
Definition handleDeleteComment (confirmed : bool) (commentId : Z) (st : State)
    : State * Ui :=
  let asked := ["Are you sure you want to delete this comment?"] in
  if confirmed then
    if deleteComment be commentId then
      (set_comments
         (filter (λ comment, Comment.id comment ≠ commentId) (comments st)) st,
       mkUi [success "Comment deleted successfully."] [] asked
            [CallDeleteComment commentId])
    else
      (st,
       mkUi [destructive "Error" "Failed to delete comment. Please try again."]
            [] asked [CallDeleteComment commentId])
  else (st, mkUi [] [] asked []).

End Handlers.

End ArticleDetail.

(** ** pages/Forum.tsx: the pagination bar *)

Module Forum.

(** [currentPage <= 3 ? i + 1 : currentPage - 2 + i]. *)
Definition page_at (currentPage i : Z) : Z :=
  if (currentPage <=? 3)%Z then (i + 1)%Z else (currentPage - 2 + i)%Z.

(** The numbered buttons, in order; empty when the bar is not rendered
    ([totalPages > 1] fails).  A slot whose page is beyond [totalPages]
    renders [null]. *)
Definition page_buttons (currentPage totalPages : Z) : list Z :=
  if (totalPages >? 1)%Z then
    omap (λ i, let page := page_at currentPage i in
               if (page >? totalPages)%Z then None else Some page)
         (seqZ 0 (Z.min 5 totalPages))
  else [].

(** [disabled={currentPage === 1}] and [disabled={currentPage === totalPages}]. *)
Definition previous_disabled (currentPage : Z) : bool := (currentPage =? 1)%Z.

Definition next_disabled (currentPage totalPages : Z) : bool :=
  (currentPage =? totalPages)%Z.

(** A click on the bar: Previous, Next or a numbered button. *)
Inductive Click := Previous | Next | Page (page : Z).

(** The page a click selects, [None] when the control is disabled or not
    rendered. *)
Definition click (c : Click) (currentPage totalPages : Z) : option Z :=
  if (totalPages >? 1)%Z then
    match c with
    | Previous =>
        if previous_disabled currentPage then None else Some (currentPage - 1)%Z
    | Next =>
        if next_disabled currentPage totalPages then None
        else Some (currentPage + 1)%Z
    | Page page =>
        if bool_decide (page ∈ page_buttons currentPage totalPages)
        then Some page else None
    end
  else None.

End Forum.

(** ** pages/CreateTopic.tsx *)

Module CreateTopic.

(** [useState({ title: '', content: '', category: '' })]. *)
Definition initial_form : gmap string string :=
  {["title" := ""; "content" := ""; "category" := ""]}.

(** [handleChange]: [setFormData({ ...formData, [field]: value })]. *)
Definition handleChange (field value : string) (formData : gmap string string)
    : gmap string string :=
  <[field := value]> formData.

Definition validation_error : Toast :=
  mkToast "Validation Error" "Please fill in all required fields."
          (Some "destructive").

Definition topic_created : Toast :=
  mkToast "Success" "Topic created successfully." None.

Definition create_failed (message : string) : Toast :=
  mkToast "Error" message (Some "destructive").

(** [handleSubmit]: what it does, or the [TypeError] of calling [trim] on
    a field that is [undefined]. *)
Definition handleSubmit (be : Backend) (formData : gmap string string)
    : Ui + Thrown :=
  let invalid := inl (mkUi [validation_error] [] [] []) in
  match formData !! "title" with
  | None => inr TypeError
  | Some title =>
      if TopicDetail.blank title then invalid else
      match formData !! "content" with
      | None => inr TypeError
      | Some content =>
          if TopicDetail.blank content then invalid
          else if negb (Js.truthy (formData !! "category")) then invalid
          else
            match createTopic be formData with
            | inl newTopic =>
                inl (mkUi [topic_created]
                          ["/forum/topics/" +:+ pretty (Topic.id newTopic)] []
                          [CallCreateTopic formData])
            | inr error =>
                inl (mkUi [create_failed
                             (or_else (response_message error)
                                      "Failed to create topic")]
                          [] [] [CallCreateTopic formData])
            end
      end
  end.

End CreateTopic.

(** ** services/api.ts: [authApi.getMe] *)

(** [getMe: async () => { const response = await api.get('/auth/me');
    return response.data.user; }]. *)
Definition getMe (server : Server) (fuel : nat) : M (Promise Js.Val) :=
  let* p := api server fuel (mkConfig "/auth/me" "get" ∅ false) in
  match p with
  | None => ret Pending
  | Some (Fulfilled response) =>
      match data response with
      | Some body => ret (Resolved (Js.get body "user"))
      | None => ret (Rejected TypeError)
      end
  | Some (RejectedWith error) => ret (Rejected error)
  end.

(** ** components/Layout.tsx *)

Module Layout.

Section Handlers.

(** The built-in [encodeURIComponent]. *)
Variable encodeURIComponent : string → string.

(** [handleSearch], from the search box to the [navigate] targets. *)
Definition handleSearch (searchQuery : string) : list string :=
  if Js.truthy_string (Js.trim searchQuery)
  then ["/search?q=" +:+ encodeURIComponent (Js.trim searchQuery)]
  else [].

End Handlers.

(** [handleLogout]: [logout()] of the context, then [navigate('/')]. *)
Definition handleLogout (s : AuthContext.State) : M (AuthContext.State * list string) :=
  let* s' := AuthContext.logout s in
  ret (s', ["/"]).

End Layout.

(** ** Vocabulary of the statements *)

(** [config.headers.Authorization]. *)
Definition authorization (c : Config) : option string :=
  headers c !! "Authorization".

(** The configuration [api(config)] puts on the wire first: the instance
    defaults merged in and the request interceptor applied. *)
Definition outbound (config : Config) (w : World) : Config :=
  (request_interceptor (merge_defaults config) w).1.

Definition api_call (c : Config) : WireCall := mkCall ApiInstance c.

Definition refresh_call (refreshToken : string) : WireCall :=
  mkCall GlobalAxios (refresh_request refreshToken).

(** How the adapter settles a request for [cfg] on a given reply: the
    response on 2xx, otherwise the error it rejects with. *)
Definition outcome (reply : WireReply) (cfg : Config) : Response + AxiosError :=
  match reply with
  | Answered r =>
      if validateStatus (status r) then inl r
      else inr (mkError (Some r) (Some cfg))
  | NoAnswer => inr (mkError None (Some cfg))
  end.

(** The same as a settled promise, before any response interceptor runs. *)
Definition settle (reply : WireReply) (cfg : Config) : Settled :=
  match outcome reply cfg with
  | inl r => Fulfilled r
  | inr e => RejectedWith (AxiosErr e)
  end.

(** The status of a reply, if it carries one. *)
Definition reply_status (reply : WireReply) : option Z :=
  match reply with
  | Answered r => Some (status r)
  | NoAnswer => None
  end.

(** The access token a reply to the refresh call yields: none when the call
    is rejected (no answer, or a status outside 2xx) or its body is null. *)
Definition refreshed_token (reply : WireReply) : option string :=
  match reply with
  | Answered r =>
      if validateStatus (status r)
      then (λ body, Js.to_string (Js.get body "access_token")) <$> data r
      else None
  | NoAnswer => None
  end.

(** The world after one more request went out. *)
Definition sent_world (w : World) (call : WireCall) : World :=
  mkWorld (localStorage w) (location_href w) (toasts w) (wire w ++ [call]).

(** Whether the interceptor takes the refresh branch for an error. *)
Definition enters_refresh (error : AxiosError) : bool :=
  match config error with
  | Some originalRequest => status_is error 401 && negb (_retry originalRequest)
  | None => false
  end.

Definition count_via (i : Instance) (calls : list WireCall) : nat :=
  length (filter (λ c, via c = i) calls).

(** What the [catch] block receives, as [refreshError], when the refresh
    attempt with [refreshToken] yields no token: the rejection of the call, or
    the [TypeError] of destructuring a null body. *)
Definition refresh_error (refreshToken : string) (reply : WireReply) : Thrown :=
  match outcome reply (refresh_request refreshToken) with
  | inl _ => TypeError
  | inr e => AxiosErr e
  end.

(** The toasts the tail of the response interceptor raises for an error. *)
Definition notification (error : AxiosError) : list Toast :=
  if status_is error 403 then [access_denied]
  else if status_ge error 500 then [server_error]
  else [].

Definition notified (w : World) (ts : list Toast) : World :=
  mkWorld (localStorage w) (location_href w) (toasts w ++ ts) (wire w).

(** The defaults of the instance are already merged into a configuration. *)
Definition merged (c : Config) : Prop :=
  headers c ∪ {["Content-Type" := "application/json"]} = headers c.

(** The state machine of one request through [api], as the specification
    draws it: [Sent] ends in [Done] (fulfilled, or rejected outside the
    refresh branch), or goes through [Refreshing] to a rejection without a
    refresh token, to the signed-out state when the refresh yields no token,
    or to [Replayed] and the settlement of the replay.  Each rule gives the
    settled promise and the world the run leaves. *)
Inductive api_run (server : Server) (config : Config) (w : World)
  : option Settled → World → Prop :=
| run_fulfilled r :
    outcome (server (wire w) (api_call (outbound config w))) (outbound config w)
      = inl r →
    api_run server config w
      (Some (Fulfilled r))
      (sent_world w (api_call (outbound config w)))
| run_rejected e :
    outcome (server (wire w) (api_call (outbound config w))) (outbound config w)
      = inr e →
    enters_refresh e = false →
    api_run server config w
      (Some (RejectedWith (AxiosErr e)))
      (notified (sent_world w (api_call (outbound config w))) (notification e))
| run_no_refresh_token e :
    outcome (server (wire w) (api_call (outbound config w))) (outbound config w)
      = inr e →
    enters_refresh e = true →
    Js.truthy (localStorage w !! "refresh_token") = false →
    api_run server config w
      (Some (RejectedWith
               (AxiosErr (mkError (response e)
                            (Some (set_retry true (outbound config w)))))))
      (sent_world w (api_call (outbound config w)))
| run_signed_out e refreshToken :
    outcome (server (wire w) (api_call (outbound config w))) (outbound config w)
      = inr e →
    enters_refresh e = true →
    localStorage w !! "refresh_token" = Some refreshToken →
    refreshToken ≠ "" →
    refreshed_token
      (server (wire w ++ [api_call (outbound config w)]) (refresh_call refreshToken))
      = None →
    api_run server config w
      (Some (RejectedWith
               (refresh_error refreshToken
                  (server (wire w ++ [api_call (outbound config w)])
                     (refresh_call refreshToken)))))
      (mkWorld (delete "refresh_token" (delete "access_token" (localStorage w)))
               (location_href w ++ ["/login"]) (toasts w)
               (wire w ++ [api_call (outbound config w); refresh_call refreshToken]))
| run_replayed e refreshToken access_token replayed reply :
    outcome (server (wire w) (api_call (outbound config w))) (outbound config w)
      = inr e →
    enters_refresh e = true →
    localStorage w !! "refresh_token" = Some refreshToken →
    refreshToken ≠ "" →
    refreshed_token
      (server (wire w ++ [api_call (outbound config w)]) (refresh_call refreshToken))
      = Some access_token →
    replayed = set_header "Authorization" ("Bearer " +:+ access_token)
                 (set_retry true (outbound config w)) →
    reply = server (wire w ++ [api_call (outbound config w);
                               refresh_call refreshToken])
                   (api_call replayed) →
    api_run server config w
      (Some (settle reply replayed))
      (mkWorld (<["access_token" := access_token]> (localStorage w))
               (location_href w)
               (toasts w ++ match outcome reply replayed with
                            | inl _ => []
                            | inr e2 => notification e2
                            end)
               (wire w ++ [api_call (outbound config w);
                           refresh_call refreshToken; api_call replayed])).

(** The sentence of the specification on bearer headers, read literally:
    a request that brings no [Authorization] header of its own goes out with
    [Bearer <token>] whenever some access token is stored, and without the
    header when none is. *)
Definition bearer_iff_stored_as_stated : Prop :=
  ∀ (config : Config) (w : World),
    authorization config = None →
    (∀ token, localStorage w !! "access_token" = Some token →
       authorization (outbound config w) = Some ("Bearer " +:+ token)) ∧
    (localStorage w !! "access_token" = None →
       authorization (outbound config w) = None).

(** ** Sample data *)

(** A backend that accepts one access token and one refresh token. *)
Definition token_server (good_access good_refresh : string) : Server :=
  λ _ call,
    let auth := authorization (sent call) in
    match via call with
    | GlobalAxios =>
        if bool_decide (auth = Some ("Bearer " +:+ good_refresh))
        then Answered (mkResponse 200 (Some {["access_token" := Js.Str good_access]}))
        else Answered (mkResponse 401 None)
    | ApiInstance =>
        if bool_decide (auth = Some ("Bearer " +:+ good_access))
        then Answered (mkResponse 200 (Some ∅))
        else Answered (mkResponse 401 (Some ∅))
    end.

(** A backend that answers every call with the same status. *)
Definition constant_server (s : Z) : Server :=
  λ _ _, Answered (mkResponse s (Some ∅)).

(** A backend that answers by position: the n-th call on the wire gets the
    n-th reply of the script, and nothing once the script is over. *)
Definition scripted_server (script : list WireReply) : Server :=
  λ log _, default NoAnswer (script !! length log).

Definition answer (s : Z) (fields : gmap string Js.Val) : WireReply :=
  Answered (mkResponse s (Some fields)).

(** The request behind [authApi.getMe]. *)
Definition me_request : Config := mkConfig "/auth/me" "get" ∅ false.

(** A backend for the session check: it knows one user, accepts one access
    token and one refresh token, and answers [/auth/me] with the user's name
    under [user]. *)
Definition me_server (good_access good_refresh : string) : Server :=
  λ _ call,
    let auth := authorization (sent call) in
    match via call with
    | GlobalAxios =>
        if bool_decide (auth = Some ("Bearer " +:+ good_refresh))
        then answer 200 {["access_token" := Js.Str good_access]}
        else Answered (mkResponse 401 None)
    | ApiInstance =>
        if bool_decide (auth = Some ("Bearer " +:+ good_access))
        then answer 200 {["user" := Js.Str "alice"]}
        else answer 401 ∅
    end.

(** Reading the samples' user field: the name [alice] stands for the
    moderator of the samples, anything else for no user. *)
Definition sample_user (v : Js.Val) : option User.t :=
  match v with
  | Js.Str "alice" => Some (User.mk 7 "alice" "alice@example.org" None None None
                              None None RoleModerator "2024-01-01T00:00:00Z" true)
  | _ => None
  end.

Definition get_articles : Config := mkConfig "/articles" "get" ∅ false.

Definition signed_in : World :=
  mkWorld {["access_token" := "old"; "refresh_token" := "r1"]} [] [] [].

Definition access_only : World :=
  mkWorld {["access_token" := "old"]} [] [] [].

Definition empty_token : World :=
  mkWorld {["access_token" := ""]} [] [] [].

Definition alice (r : Role) : User.t :=
  User.mk 7 "alice" "alice@example.org" None None None None None r
          "2024-01-01T00:00:00Z" true.

Definition locked_topic : Topic.t :=
  Topic.mk 3 "Rules" "Read first." "Meta" 10 0 true true (alice RoleAdmin)
           "2024-01-01T00:00:00Z" "2024-01-01T00:00:00Z" None.

Definition a_reply (topicId : Z) (content : string) : Reply.t :=
  Reply.mk 1 content (alice RoleModerator) "2024-01-02T00:00:00Z"
           "2024-01-02T00:00:00Z" topicId.

Definition edit_profile : PrivateRoute.Location :=
  PrivateRoute.mkLocation "/profile/edit" "" "".

Definition open_topic : Topic.t :=
  Topic.mk 4 "Spring season" "What are you watching?" "Anime" 25 2 false false
           (alice RoleUser) "2024-03-01T00:00:00Z" "2024-03-01T00:00:00Z" None.

(** A backend on which every call of a resource client fails. *)
Definition failing_backend : Backend :=
  mkBackend (λ _, false) (λ _, inr TypeError) (λ _, None) (λ _ _, None)
            (λ _ _, None) (λ _, None) (λ _, false).

Definition an_article : Article.t :=
  Article.mk 9 "Winter preview" "Ten shows to watch." None "Anime" false true
             120 5 false None (alice RoleUser) "2024-01-05T00:00:00Z"
             "2024-01-05T00:00:00Z".

Definition a_comment (id : Z) (content : string) : Comment.t :=
  Comment.mk id content 0 false (alice RoleUser) "2024-01-06T00:00:00Z"
             "2024-01-06T00:00:00Z" 9 None [].

(** A backend on which every call succeeds: likes come back as liked with
    41 likes, new comments and replies get the id 100. *)
Definition friendly_backend : Backend :=
  mkBackend (λ _, true) (λ _, inl open_topic) (λ _, Some (true, 41%Z))
            (λ content _, Some (a_comment 100 content))
            (λ _ content, Some (a_comment 100 content))
            (λ _, Some (true, 41%Z)) (λ _, true).

Definition a_member : AuthContext.Value :=
  AuthContext.useAuth (AuthContext.mkState (Some (alice RoleUser)) false).

(** * Properties *)

(** ** Session context *)

Section SessionFacts.

Import AuthContext.

Lemma role_is_true (u : option User.t) (r : Role) :
  role_is u r = true ↔ ∃ x, u = Some x ∧ User.role x = r.
Proof.
  unfold role_is. destruct u as [x|].
  - split.
    + intros H. exists x. split; [done|].
      destruct (User.role x), r; done.
    + intros (y & [= <-] & <-). by destruct (User.role x).
  - split; [done|]. by intros (? & ? & _).
Qed.

(** C5. In every session state [isModerator] holds exactly when there is a
    current user whose role is moderator or admin (so it is false for role
    user), [isAdmin] exactly when the role is admin, both are false without a
    user, [isAdmin] implies [isModerator] and [isModerator] implies
    [isAuthenticated]. *)
Theorem role_flags (s : State) :
  (isModerator s = true ↔
     ∃ u, user s = Some u ∧ (User.role u = RoleModerator ∨ User.role u = RoleAdmin)) ∧
  (isAdmin s = true ↔ ∃ u, user s = Some u ∧ User.role u = RoleAdmin) ∧
  (∀ u, user s = Some u → User.role u = RoleUser →
     isModerator s = false ∧ isAdmin s = false) ∧
  (user s = None → isModerator s = false ∧ isAdmin s = false) ∧
  (isAdmin s = true → isModerator s = true) ∧
  (isModerator s = true → isAuthenticated s = true).
Proof.
  unfold isModerator, isAdmin, isAuthenticated.
  split; [|split; [|split; [|split; [|split]]]].
  - split.
    + intros H. apply orb_true_iff in H.
      destruct H as [H|H]; apply role_is_true in H;
        destruct H as (u & Hu & Hr); eauto.
    + intros (u & Hu & [Hr|Hr]); apply orb_true_iff; [left|right];
        apply role_is_true; eauto.
  - apply role_is_true.
  - intros u Hu Hr. rewrite Hu. simpl. by rewrite Hr.
  - by intros ->.
  - intros ->. apply orb_true_r.
  - destruct (user s); [done|]. simpl. discriminate.
Qed.

Lemma role_flags_witness :
  isModerator (mkState (Some (alice RoleModerator)) false) = true ∧
  isAdmin (mkState (Some (alice RoleModerator)) false) = false ∧
  isModerator (mkState (Some (alice RoleUser)) false) = false ∧
  isAuthenticated (mkState (Some (alice RoleAdmin)) false) = true.
Proof.
  split; [|split; [|split]].
  - destruct (role_flags (mkState (Some (alice RoleModerator)) false)) as [Hm _].
    apply Hm. exists (alice RoleModerator).
    split; [reflexivity | left; reflexivity].
  - reflexivity.
  - destruct (role_flags (mkState (Some (alice RoleUser)) false))
      as (_ & _ & Hu & _).
    apply (Hu (alice RoleUser)); reflexivity.
  - destruct (role_flags (mkState (Some (alice RoleAdmin)) false))
      as (_ & _ & _ & _ & _ & Hma).
    apply Hma. reflexivity.
Defined.

(** C8. [logout] removes both tokens from storage, sets the current user to
    null, sends nothing on the wire and does not touch the location; in the
    state it leaves, the three flags are false.  It is one step of the state
    monad: it takes no server and awaits nothing. *)
Theorem logout_clears (s : State) (w : World) :
  let r := logout s w in
  localStorage r.2 = delete "refresh_token" (delete "access_token" (localStorage w)) ∧
  localStorage r.2 !! "access_token" = None ∧
  localStorage r.2 !! "refresh_token" = None ∧
  user r.1 = None ∧
  wire r.2 = wire w ∧
  location_href r.2 = location_href w ∧
  isAuthenticated r.1 = false ∧ isModerator r.1 = false ∧ isAdmin r.1 = false.
Proof.
  cbn -[delete lookup]. repeat split.
  - rewrite lookup_delete_ne; [|done]. apply lookup_delete_eq.
  - apply lookup_delete_eq.
Qed.

End SessionFacts.

(** ** Route guard *)

Section GuardFacts.

Import PrivateRoute.

Context {Node : Type}.

(** C7. Once [loading] is false: an unauthenticated visitor is sent to
    [/login] with the requested location kept in the navigation state; an
    authenticated one who fails the admin or the moderator requirement is sent
    to [/]; in every other case the children render. *)
Theorem guard_policy (props : Props Node) (auth : AuthContext.Value)
    (location : Location) :
  AuthContext.v_loading auth = false →
  (AuthContext.v_isAuthenticated auth = false →
     PrivateRoute props auth location = Navigate "/login" (Some location) true) ∧
  (AuthContext.v_isAuthenticated auth = true →
     (requireAdmin props = true ∧ AuthContext.v_isAdmin auth = false) ∨
     (requireModerator props = true ∧ AuthContext.v_isModerator auth = false) →
     PrivateRoute props auth location = Navigate "/" None true) ∧
  (AuthContext.v_isAuthenticated auth = true →
     (requireAdmin props = true → AuthContext.v_isAdmin auth = true) →
     (requireModerator props = true → AuthContext.v_isModerator auth = true) →
     PrivateRoute props auth location = Fragment (children props)).
Proof.
  intros Hl. unfold PrivateRoute. rewrite Hl.
  split; [|split].
  - by intros ->.
  - intros -> [[-> ->]|[-> ->]]; simpl; [done|].
    by destruct (requireAdmin props && _).
  - intros -> Ha Hm. simpl.
    destruct (requireAdmin props); [rewrite Ha by done|]; simpl;
      (destruct (requireModerator props); [rewrite Hm by done|]); done.
Qed.

End GuardFacts.

Lemma guard_policy_witness :
  PrivateRoute.PrivateRoute (PrivateRoute.mkProps "EditProfile" false false)
    (AuthContext.useAuth (AuthContext.mkState None false)) edit_profile
  = PrivateRoute.Navigate "/login" (Some edit_profile) true.
Proof.
  apply (guard_policy (PrivateRoute.mkProps "EditProfile" false false)
           (AuthContext.useAuth (AuthContext.mkState None false)) edit_profile);
    reflexivity.
Defined.

(** ** Topic page *)

Section TopicFacts.

Import TopicDetail.

Variable createReply : Z → string → option Reply.t.

(** A blank reply is dropped before the lock is looked at: no call and no
    toast, whoever submits. *)
Lemma blank_reply_dropped (auth : AuthContext.Value) (st : State) (t : Topic.t) :
  topic st = Some t →
  AuthContext.v_isAuthenticated auth = true →
  blank (replyContent st) = true →
  handleSubmitReply createReply auth st = (st, mkEffects [] []).
Proof.
  intros Ht Ha Hb. unfold handleSubmitReply. by rewrite Ht, Ha, Hb.
Qed.

(** The view offers the form on no locked topic, moderator or not. *)
Lemma locked_topic_has_no_form (auth : AuthContext.Value) (st : State) (t : Topic.t) :
  Topic.is_locked t = true → reply_pane auth st t = LockedNotice.
Proof.
  intros Hl. unfold reply_pane. rewrite Hl.
  by destruct (AuthContext.v_isAuthenticated auth).
Qed.

(** What the handler does with a reply to a locked topic that is not
    blank: from an authenticated non-moderator it is refused, with no call of
    [createReply], the Topic Locked toast of the handler and the state
    untouched; from a moderator it is passed to [createReply] once. *)
Lemma locked_reply (auth : AuthContext.Value) (st : State) (t : Topic.t) :
  topic st = Some t →
  Topic.is_locked t = true →
  AuthContext.v_isAuthenticated auth = true →
  blank (replyContent st) = false →
  let r := handleSubmitReply createReply auth st in
  (AuthContext.v_isModerator auth = false →
     r = (st, mkEffects [topic_locked] [])) ∧
  (AuthContext.v_isModerator auth = true →
     createReply_calls r.2 = [(Topic.id t, replyContent st)]).
Proof.
  intros Ht Hl Ha Hb. unfold handleSubmitReply.
  rewrite Ht, Ha, Hb, Hl. simpl. split.
  - by intros ->.
  - intros ->. simpl.
    by destruct (createReply (Topic.id t) (replyContent st)).
Qed.

(** C6. On a locked topic the two places that decide on replies disagree
    about moderators.  The handler lets a moderator's reply through: with a
    draft that is not blank it calls [createReply] once, for the topic and
    the draft.  The view does not: it renders the locked notice in place of
    the reply form for every visitor of a locked topic, a moderator
    included, so the moderator is given no form to submit the reply with. *)
Theorem locked_topic_shuts_out_moderator (s : AuthContext.State) (st : State)
    (t : Topic.t) :
  topic st = Some t →
  Topic.is_locked t = true →
  AuthContext.isModerator s = true →
  blank (replyContent st) = false →
  let auth := AuthContext.useAuth s in
  createReply_calls (handleSubmitReply createReply auth st).2
    = [(Topic.id t, replyContent st)] ∧
  reply_pane auth st t = LockedNotice ∧
  ∀ disabled, reply_pane auth st t ≠ ReplyForm disabled.
Proof.
  intros Ht Hl Hm Hb auth.
  assert (AuthContext.v_isAuthenticated auth = true) as Ha.
  { subst auth. unfold AuthContext.isModerator, AuthContext.role_is in Hm.
    simpl. unfold AuthContext.isAuthenticated.
    by destruct (AuthContext.user s). }
  destruct (locked_reply auth st t Ht Hl Ha Hb) as [_ Hmod].
  split; [by apply Hmod|].
  rewrite (locked_topic_has_no_form auth st t Hl). by split.
Qed.

End TopicFacts.

Lemma locked_topic_shuts_out_moderator_witness :
  let auth := AuthContext.useAuth
                (AuthContext.mkState (Some (alice RoleModerator)) false) in
  let st := TopicDetail.mkState (Some locked_topic) [] "hello" false in
  TopicDetail.reply_pane auth st locked_topic = TopicDetail.LockedNotice ∧
  TopicDetail.createReply_calls
    (TopicDetail.handleSubmitReply (λ i c, Some (a_reply i c)) auth st).2
  = [(3%Z, "hello")].
Proof.
  intros auth st.
  destruct (locked_topic_shuts_out_moderator (λ i c, Some (a_reply i c))
              (AuthContext.mkState (Some (alice RoleModerator)) false) st
              locked_topic eq_refl eq_refl eq_refl eq_refl)
    as (Hcall & Hpane & _).
  split; [exact Hpane | exact Hcall].
Defined.

(** ** HTTP client: the request interceptor *)

Lemma request_interceptor_run (c : Config) (w : World) :
  request_interceptor c w =
    (match localStorage w !! "access_token" with
     | Some token =>
         if Js.truthy_string token
         then set_header "Authorization" ("Bearer " +:+ token) c
         else c
     | None => c
     end, w).
Proof.
  unfold request_interceptor, bind, getItem. simpl.
  destruct (localStorage w !! "access_token") as [token|]; [|done].
  by destruct (Js.truthy_string token).
Qed.

Lemma truthy_string_true (s : string) : Js.truthy_string s = true ↔ s ≠ "".
Proof. destruct s; simpl; split; congruence. Qed.

Lemma authorization_merge_defaults (c : Config) :
  authorization (merge_defaults c) = authorization c.
Proof.
  unfold authorization, merge_defaults. simpl.
  destruct (headers c !! "Authorization") as [v|] eqn:Hv.
  - by apply lookup_union_Some_l.
  - apply lookup_union_None. split; [done|].
    by apply lookup_singleton_ne.
Qed.

Lemma outbound_retry (config : Config) (w : World) :
  _retry (outbound config w) = _retry config.
Proof.
  unfold outbound. rewrite request_interceptor_run. simpl.
  destruct (localStorage w !! "access_token") as [token|]; [|done].
  by destruct (Js.truthy_string token).
Qed.

(** The defaults are merged once and for all: setting a header or the
    retry flag afterwards keeps them. *)
Lemma merged_merge_defaults (c : Config) : merged (merge_defaults c).
Proof.
  unfold merged, merge_defaults. simpl.
  by rewrite <- (assoc_L (∪)), (idemp_L (∪)).
Qed.

Lemma merged_fixed (c : Config) : merged c → merge_defaults c = c.
Proof. unfold merged, merge_defaults. intros ->. by destruct c. Qed.

Lemma merged_set_header (k v : string) (c : Config) :
  merged c → merged (set_header k v c).
Proof.
  unfold merged, set_header. simpl. intros Hc.
  by rewrite <- insert_union_l, Hc.
Qed.

Lemma merged_set_retry (b : bool) (c : Config) :
  merged c → merged (set_retry b c).
Proof. done. Qed.

Lemma merged_outbound (config : Config) (w : World) : merged (outbound config w).
Proof.
  unfold outbound. rewrite request_interceptor_run. simpl.
  destruct (localStorage w !! "access_token") as [token|];
    [destruct (Js.truthy_string token)|];
    auto using merged_merge_defaults, merged_set_header.
Qed.

(** The replayed configuration passes the interceptor unchanged when the
    token it was built from is the one in storage. *)
Lemma outbound_replayed (c : Config) (access_token : string) (w : World) :
  merged c →
  localStorage w !! "access_token" = Some access_token →
  outbound (set_header "Authorization" ("Bearer " +:+ access_token) c) w
  = set_header "Authorization" ("Bearer " +:+ access_token) c.
Proof.
  intros Hc Htok. unfold outbound.
  rewrite (merged_fixed _ (merged_set_header _ _ _ Hc)).
  rewrite request_interceptor_run, Htok. simpl.
  destruct (Js.truthy_string access_token); [|done].
  unfold set_header. simpl. by rewrite insert_insert_eq.
Qed.

(** ** HTTP client: the response interceptor *)

Section ClientFacts.

Variable server : Server.

Lemma send_run (inst : Instance) (cfg : Config) (w : World) :
  send server inst cfg w =
    (outcome (server (wire w) (mkCall inst cfg)) cfg,
     sent_world w (mkCall inst cfg)).
Proof.
  unfold send, outcome, sent_world.
  destruct (server (wire w) (mkCall inst cfg)) as [r|]; [|done].
  by destruct (validateStatus (status r)).
Qed.

Lemma handle_error_types_run (error : AxiosError) (w : World) :
  handle_error_types error w =
    (Some (RejectedWith (AxiosErr error)), notified w (notification error)).
Proof.
  unfold handle_error_types, notification, notified, bind, toast, ret.
  destruct (status_is error 403); [done|].
  destruct (status_ge error 500); [done|].
  simpl. rewrite app_nil_r. by destruct w.
Qed.

(** Outside the refresh branch the interceptor is its tail, whatever the
    replay function is. *)
Lemma interceptor_tail (k : Config → M (option Settled)) (error : AxiosError)
    (w : World) :
  enters_refresh error = false →
  response_error_interceptor server k error w = handle_error_types error w.
Proof.
  unfold enters_refresh, response_error_interceptor.
  destruct (config error) as [originalRequest|]; [|done].
  by intros ->.
Qed.

(** Refresh branch, no usable refresh token: fall through to the tail with
    the request marked. *)
Lemma interceptor_no_refresh_token (k : Config → M (option Settled))
    (error : AxiosError) (originalRequest : Config) (w : World) :
  config error = Some originalRequest →
  status_is error 401 = true →
  _retry originalRequest = false →
  Js.truthy (localStorage w !! "refresh_token") = false →
  response_error_interceptor server k error w =
    handle_error_types
      (mkError (response error) (Some (set_retry true originalRequest))) w.
Proof.
  intros Hc Hs Hr Ht. unfold response_error_interceptor.
  rewrite Hc, Hs, Hr. simpl.
  unfold refresh_and_replay, bind, getItem. simpl.
  destruct (localStorage w !! "refresh_token") as [rt|]; [|done].
  simpl in Ht. by rewrite Ht.
Qed.

(** Refresh branch, the refresh attempt yields no token: the [catch] block. *)
Lemma interceptor_refresh_fails (k : Config → M (option Settled))
    (error : AxiosError) (originalRequest : Config) (w : World)
    (refreshToken : string) :
  config error = Some originalRequest →
  status_is error 401 = true →
  _retry originalRequest = false →
  localStorage w !! "refresh_token" = Some refreshToken →
  refreshToken ≠ "" →
  refreshed_token (server (wire w) (refresh_call refreshToken)) = None →
  response_error_interceptor server k error w =
    (Some (RejectedWith
             (refresh_error refreshToken
                (server (wire w) (refresh_call refreshToken)))),
     mkWorld (delete "refresh_token" (delete "access_token" (localStorage w)))
             (location_href w ++ ["/login"]) (toasts w)
             (wire w ++ [refresh_call refreshToken])).
Proof.
  intros Hc Hs Hr Ht Hne Hfail. apply truthy_string_true in Hne.
  unfold response_error_interceptor. rewrite Hc, Hs, Hr. simpl.
  unfold refresh_and_replay, bind, getItem. simpl. rewrite Ht, Hne.
  rewrite send_run. fold (refresh_call refreshToken).
  unfold refresh_error, refreshed_token, outcome in *.
  destruct (server (wire w) (refresh_call refreshToken)) as [r|]; [|done].
  destruct (validateStatus (status r)); [|done].
  by destruct (data r).
Qed.

(** Refresh branch, the refresh attempt yields a token: it is stored and
    the marked request is handed to the replay function with the new
    header. *)
Lemma interceptor_refresh_ok (k : Config → M (option Settled))
    (error : AxiosError) (originalRequest : Config) (w : World)
    (refreshToken access_token : string) :
  config error = Some originalRequest →
  status_is error 401 = true →
  _retry originalRequest = false →
  localStorage w !! "refresh_token" = Some refreshToken →
  refreshToken ≠ "" →
  refreshed_token (server (wire w) (refresh_call refreshToken)) = Some access_token →
  response_error_interceptor server k error w =
    k (set_header "Authorization" ("Bearer " +:+ access_token)
         (set_retry true originalRequest))
      (mkWorld (<["access_token" := access_token]> (localStorage w))
               (location_href w) (toasts w)
               (wire w ++ [refresh_call refreshToken])).
Proof.
  intros Hc Hs Hr Ht Hne Hok. apply truthy_string_true in Hne.
  unfold response_error_interceptor. rewrite Hc, Hs, Hr. simpl.
  unfold refresh_and_replay, bind, getItem. simpl. rewrite Ht, Hne.
  rewrite send_run. fold (refresh_call refreshToken).
  unfold refreshed_token, outcome in *.
  destruct (server (wire w) (refresh_call refreshToken)) as [r|]; [|done].
  destruct (validateStatus (status r)); [|done].
  destruct (data r) as [body|]; [|done].
  simpl in Hok. injection Hok as <-.
  unfold setItem, ret. simpl.
  by destruct (k _ _).
Qed.

(** One step of [api]. *)
Lemma api_step (fuel : nat) (config : Config) (w : World) :
  api server (S fuel) config w =
    let c := outbound config w in
    let w1 := sent_world w (api_call c) in
    match outcome (server (wire w) (api_call c)) c with
    | inl r => (Some (Fulfilled r), w1)
    | inr e => response_error_interceptor server (api server fuel) e w1
    end.
Proof.
  simpl. unfold bind at 1. unfold outbound.
  rewrite request_interceptor_run. simpl.
  unfold bind. rewrite send_run. unfold api_call.
  set (c := match localStorage w !! "access_token" with
            | Some token => _ | None => _ end).
  by destruct (outcome (server (wire w) (mkCall ApiInstance c)) c).
Qed.

#[local] Arguments api : simpl never.

Lemma outcome_error (reply : WireReply) (c : Config) (e : AxiosError) :
  outcome reply c = inr e →
  config e = Some c ∧
  response e = match reply with Answered r => Some r | NoAnswer => None end.
Proof.
  unfold outcome. destruct reply as [r|].
  - destruct (validateStatus (status r)); [done|]. by intros [= <-].
  - by intros [= <-].
Qed.

(** A request that carries the retry mark is sent once and settles at once. *)
Lemma api_retried (fuel : nat) (config : Config) (w : World) :
  _retry config = true →
  api server (S fuel) config w =
    let c := outbound config w in
    let reply := server (wire w) (api_call c) in
    (Some (settle reply c),
     notified (sent_world w (api_call c))
       match outcome reply c with
       | inl _ => []
       | inr e => notification e
       end).
Proof.
  intros Hr. rewrite api_step. unfold settle. simpl.
  destruct (outcome _ _) as [r|e] eqn:Ho.
  - unfold notified, sent_world. simpl. by rewrite app_nil_r.
  - destruct (outcome_error _ _ _ Ho) as [Hc _].
    rewrite interceptor_tail, handle_error_types_run; [done|].
    unfold enters_refresh. rewrite Hc, outbound_retry, Hr. simpl.
    apply andb_false_r.
Qed.

Lemma notification_401 (e : AxiosError) :
  status_is e 401 = true → notification e = [].
Proof.
  unfold notification, status_is, status_ge.
  destruct (response e) as [r|]; [|done].
  intros H%Z.eqb_eq. by rewrite H.
Qed.

(** Every run of [api] with fuel for one replay follows the state machine. *)
Lemma api_run_total (fuel : nat) (config : Config) (w : World) :
  api_run server config w
    (api server (S (S fuel)) config w).1 (api server (S (S fuel)) config w).2.
Proof.
  rewrite api_step. simpl.
  destruct (outcome _ _) as [r|e] eqn:Ho; [by apply run_fulfilled|].
  destruct (enters_refresh e) eqn:He.
  2:{ rewrite interceptor_tail, handle_error_types_run by done.
      by apply run_rejected. }
  destruct (outcome_error _ _ _ Ho) as [Hc Hresp].
  pose proof He as He'. unfold enters_refresh in He'. rewrite Hc in He'.
  apply andb_true_iff in He' as [H401 Hnr]. apply negb_true_iff in Hnr.
  destruct (Js.truthy (localStorage w !! "refresh_token")) eqn:Ht.
  2:{ rewrite (interceptor_no_refresh_token _ _ _ _ Hc H401 Hnr) by done.
      rewrite handle_error_types_run, notification_401 by done.
      unfold notified. simpl. rewrite app_nil_r.
      by apply run_no_refresh_token. }
  destruct (localStorage w !! "refresh_token") as [rt|] eqn:Hrt; [|done].
  simpl in Ht. apply truthy_string_true in Ht.
  destruct (refreshed_token
              (server (wire w ++ [api_call (outbound config w)]) (refresh_call rt)))
    as [tok|] eqn:Hrf.
  - rewrite (interceptor_refresh_ok _ _ _ _ rt tok Hc H401 Hnr) by done.
    rewrite api_retried by done.
    rewrite outbound_replayed;
      [| apply merged_set_retry, merged_outbound | simpl; apply lookup_insert_eq].
    unfold notified, sent_world. simpl. rewrite <- !(assoc_L (++)). simpl.
    by eapply run_replayed.
  - rewrite (interceptor_refresh_fails _ _ _ _ rt Hc H401 Hnr) by done.
    simpl. rewrite <- !(assoc_L (++)). simpl.
    by eapply run_signed_out.
Qed.

End ClientFacts.

(** ** HTTP client: what a run of [api] guarantees *)

Section RunFacts.

Variable server : Server.

Lemma outcome_401 (reply : WireReply) (c : Config) :
  reply_status reply = Some 401%Z →
  ∃ resp, reply = Answered resp ∧ status resp = 401%Z ∧
          outcome reply c = inr (mkError (Some resp) (Some c)).
Proof.
  destruct reply as [resp|]; [|done]. simpl. intros [= Hs].
  exists resp. by rewrite Hs.
Qed.

(** A first answer of 401 to a request without the retry mark takes the
    refresh branch. *)
Lemma first_401_enters_refresh (config : Config) (w : World) :
  _retry config = false →
  reply_status (server (wire w) (api_call (outbound config w))) = Some 401%Z →
  ∃ e, outcome (server (wire w) (api_call (outbound config w))) (outbound config w)
         = inr e ∧
       enters_refresh e = true ∧
       response e = match server (wire w) (api_call (outbound config w)) with
                    | Answered r => Some r
                    | NoAnswer => None
                    end.
Proof.
  intros Hr H401.
  destruct (outcome_401 _ (outbound config w) H401) as (resp & Hreply & Hs & Ho).
  eexists. split; [exact Ho|]. split.
  - unfold enters_refresh, status_is. simpl. by rewrite Hs, outbound_retry, Hr.
  - by rewrite Hreply.
Qed.

Lemma falsy_token (w : World) (k refreshToken : string) :
  localStorage w !! k = Some refreshToken →
  refreshToken ≠ "" →
  Js.truthy (localStorage w !! k) = false → False.
Proof.
  intros -> Hne%truthy_string_true. simpl. congruence.
Qed.

(** Two facts about the same reply or the same storage entry are merged;
    used after inverting a run to discard the rules that do not apply. *)
Ltac merge_facts :=
  repeat match goal with
    | H1 : ?x = _, H2 : ?x = _ |- _ => rewrite H1 in H2; simplify_eq
    end.

Ltac invert_run H :=
  inversion H; subst; merge_facts;
  try done; try (exfalso; eauto using falsy_token; fail).

(** Inversion of the state machine on the replay path. *)
Lemma api_run_replayed_inv (config : Config) (w : World)
    (refreshToken access_token : string) (out : option Settled) (w' : World) :
  _retry config = false →
  reply_status (server (wire w) (api_call (outbound config w))) = Some 401%Z →
  localStorage w !! "refresh_token" = Some refreshToken →
  refreshToken ≠ "" →
  refreshed_token
    (server (wire w ++ [api_call (outbound config w)]) (refresh_call refreshToken))
    = Some access_token →
  api_run server config w out w' →
  let replayed := set_header "Authorization" ("Bearer " +:+ access_token)
                    (set_retry true (outbound config w)) in
  let reply := server (wire w ++ [api_call (outbound config w);
                                  refresh_call refreshToken])
                      (api_call replayed) in
  out = Some (settle reply replayed) ∧
  w' = mkWorld (<["access_token" := access_token]> (localStorage w))
               (location_href w)
               (toasts w ++ match outcome reply replayed with
                            | inl _ => []
                            | inr e2 => notification e2
                            end)
               (wire w ++ [api_call (outbound config w);
                           refresh_call refreshToken; api_call replayed]).
Proof.
  intros Hr H401 Hrt Hne Hok Hrun.
  destruct (first_401_enters_refresh _ _ Hr H401) as (e & Ho & He & _).
  invert_run Hrun.
Qed.

(** Inversion of the state machine when the refresh attempt yields no
    token. *)
Lemma api_run_signed_out_inv (config : Config) (w : World)
    (refreshToken : string) (out : option Settled) (w' : World) :
  _retry config = false →
  reply_status (server (wire w) (api_call (outbound config w))) = Some 401%Z →
  localStorage w !! "refresh_token" = Some refreshToken →
  refreshToken ≠ "" →
  refreshed_token
    (server (wire w ++ [api_call (outbound config w)]) (refresh_call refreshToken))
    = None →
  api_run server config w out w' →
  out = Some (RejectedWith
                (refresh_error refreshToken
                   (server (wire w ++ [api_call (outbound config w)])
                      (refresh_call refreshToken)))) ∧
  w' = mkWorld (delete "refresh_token" (delete "access_token" (localStorage w)))
               (location_href w ++ ["/login"]) (toasts w)
               (wire w ++ [api_call (outbound config w); refresh_call refreshToken]).
Proof.
  intros Hr H401 Hrt Hne Hfail Hrun.
  destruct (first_401_enters_refresh _ _ Hr H401) as (e & Ho & He & _).
  invert_run Hrun.
Qed.

(** Inversion of the state machine when no usable refresh token is stored. *)
Lemma api_run_no_token_inv (config : Config) (w : World)
    (out : option Settled) (w' : World) :
  _retry config = false →
  reply_status (server (wire w) (api_call (outbound config w))) = Some 401%Z →
  Js.truthy (localStorage w !! "refresh_token") = false →
  api_run server config w out w' →
  ∃ e, outcome (server (wire w) (api_call (outbound config w))) (outbound config w)
         = inr e ∧
       out = Some (RejectedWith
                     (AxiosErr (mkError (response e)
                                  (Some (set_retry true (outbound config w)))))) ∧
       w' = sent_world w (api_call (outbound config w)).
Proof.
  intros Hr H401 Hrt Hrun.
  destruct (first_401_enters_refresh _ _ Hr H401) as (e & Ho & He & _).
  exists e. split; [done|].
  invert_run Hrun.
Qed.

(** What every run leaves behind, rule by rule: the promise is settled, the
    wire grew by at most the original request, one refresh call and one
    replay, the location was assigned [/login] at most once, and the stored
    refresh token is the one from before or gone. *)
Lemma api_run_bounds (config : Config) (w : World)
    (out : option Settled) (w' : World) :
  api_run server config w out w' →
  is_Some out ∧
  (∃ calls, wire w' = wire w ++ calls ∧
            (count_via ApiInstance calls ≤ 2)%nat ∧
            (count_via GlobalAxios calls ≤ 1)%nat) ∧
  (location_href w' = location_href w ∨
   location_href w' = location_href w ++ ["/login"]) ∧
  (localStorage w' !! "refresh_token" = localStorage w !! "refresh_token" ∨
   localStorage w' !! "refresh_token" = None).
Proof.
  intros Hrun. inversion Hrun; subst; simpl.
  - split; [done|]. split; [|by auto].
    exists [api_call (outbound config w)]. by compute; auto.
  - split; [done|]. split; [|by auto].
    exists [api_call (outbound config w)]. by compute; auto.
  - split; [done|]. split; [|by auto].
    exists [api_call (outbound config w)]. by compute; auto.
  - split; [done|]. split; [|split; [by auto|]].
    + exists [api_call (outbound config w); refresh_call refreshToken].
      by compute; auto.
    + right. apply lookup_delete_eq.
  - split; [done|]. split; [|split; [by auto|]].
    + eexists. split; [done|]. by compute; auto.
    + left. by apply lookup_insert_ne.
Qed.

Lemma api_run_first_call (config : Config) (w : World)
    (out : option Settled) (w' : World) :
  api_run server config w out w' →
  ∃ later, wire w' = wire w ++ api_call (outbound config w) :: later.
Proof.
  intros Hrun. inversion Hrun; subst; simpl; eauto.
Qed.

Lemma notification_at_most_one (e : AxiosError) :
  (length (notification e) ≤ 1)%nat.
Proof.
  unfold notification.
  destruct (status_is e 403); [simpl; lia|].
  destruct (status_ge e 500); simpl; lia.
Qed.

Lemma api_run_toasts (config : Config) (w : World)
    (out : option Settled) (w' : World) :
  api_run server config w out w' →
  ∃ ts, toasts w' = toasts w ++ ts ∧ (length ts ≤ 1)%nat.
Proof.
  intros Hrun. inversion Hrun; subst; simpl.
  - exists []. rewrite app_nil_r. simpl. split; [done|lia].
  - eauto using notification_at_most_one.
  - exists []. rewrite app_nil_r. simpl. split; [done|lia].
  - exists []. rewrite app_nil_r. simpl. split; [done|lia].
  - eexists. split; [done|].
    destruct (outcome _ _); [simpl; lia | apply notification_at_most_one].
Qed.

(** A 403 or a status from 500 up never takes the refresh branch. *)
Lemma other_status_skips_refresh (error : AxiosError) :
  status_is error 403 = true ∨ status_ge error 500 = true →
  enters_refresh error = false.
Proof.
  unfold enters_refresh, status_is, status_ge.
  destruct (config error) as [c|]; [|done].
  destruct (response error) as [r|]; [|done].
  intros [H|H]; apply andb_false_iff; left; lia.
Qed.

End RunFacts.

(** ** The claims on the HTTP client *)

(** C1. A request without the retry mark that is answered 401, while a
    non-empty refresh token is stored and the refresh call comes back 2xx with
    a body, makes [api] store the returned access token, send the original
    request once more and only once, marked and with [Bearer <new token>] as
    its [Authorization] header, and settle as that replay settles; the
    location is not touched. *)
Theorem refresh_and_replay_once (server : Server) (fuel : nat)
    (config : Config) (w : World) (refreshToken access_token : string) :
  _retry config = false →
  reply_status (server (wire w) (api_call (outbound config w))) = Some 401%Z →
  localStorage w !! "refresh_token" = Some refreshToken →
  refreshToken ≠ "" →
  refreshed_token
    (server (wire w ++ [api_call (outbound config w)]) (refresh_call refreshToken))
    = Some access_token →
  let replayed := set_header "Authorization" ("Bearer " +:+ access_token)
                    (set_retry true (outbound config w)) in
  let reply := server (wire w ++ [api_call (outbound config w);
                                  refresh_call refreshToken])
                      (api_call replayed) in
  let r := api server (S (S fuel)) config w in
  localStorage r.2 = <["access_token" := access_token]> (localStorage w) ∧
  wire r.2 = wire w ++ [api_call (outbound config w);
                        refresh_call refreshToken; api_call replayed] ∧
  authorization replayed = Some ("Bearer " +:+ access_token) ∧
  _retry replayed = true ∧
  r.1 = Some (settle reply replayed) ∧
  location_href r.2 = location_href w.
Proof.
  intros Hr H401 Hrt Hne Hok replayed reply r.
  destruct (api_run_replayed_inv server config w refreshToken access_token
              r.1 r.2 Hr H401 Hrt Hne Hok (api_run_total server fuel config w))
    as [Hout Hw].
  rewrite Hout, Hw. simpl. repeat split; try done.
  apply lookup_insert_eq.
Qed.

Lemma refresh_and_replay_once_witness :
  let r := api (token_server "new" "r1") 2 get_articles signed_in in
  localStorage r.2 = <["access_token" := "new"]> (localStorage signed_in) ∧
  (∃ resp, r.1 = Some (Fulfilled resp) ∧ status resp = 200%Z) ∧
  length (wire r.2) = 3%nat.
Proof.
  destruct (refresh_and_replay_once (token_server "new" "r1") 0 get_articles
              signed_in "r1" "new")
    as (Hst & Hwire & _ & _ & Hout & _);
    [reflexivity | reflexivity | reflexivity | discriminate | reflexivity |].
  split; [exact Hst|]. split.
  - eexists. split; [exact Hout | reflexivity].
  - rewrite Hwire. reflexivity.
Defined.

(** C2. Every run of [api] settles after at most two sends of the request
    and at most one refresh call, and assigns the location at most once; a
    request that already carries the retry mark is sent once and never
    refreshed; a 401 on the replay is rejected to the caller with nothing
    further sent; and when the refresh attempt yields no token, both tokens
    are removed from storage, the location is assigned [/login] exactly once,
    no replay is sent and the promise rejects with the refresh error. *)
Theorem retry_at_most_once (server : Server) (fuel : nat)
    (config : Config) (w : World) :
  let first := api_call (outbound config w) in
  let r := api server (S (S fuel)) config w in
  (is_Some r.1 ∧
   (∃ calls, wire r.2 = wire w ++ calls ∧
             (count_via ApiInstance calls ≤ 2)%nat ∧
             (count_via GlobalAxios calls ≤ 1)%nat) ∧
   (location_href r.2 = location_href w ∨
    location_href r.2 = location_href w ++ ["/login"])) ∧
  (_retry config = true →
     wire r.2 = wire w ++ [first] ∧
     localStorage r.2 = localStorage w ∧
     location_href r.2 = location_href w) ∧
  (∀ refreshToken access_token,
     _retry config = false →
     reply_status (server (wire w) first) = Some 401%Z →
     localStorage w !! "refresh_token" = Some refreshToken →
     refreshToken ≠ "" →
     refreshed_token (server (wire w ++ [first]) (refresh_call refreshToken))
       = Some access_token →
     let replayed := set_header "Authorization" ("Bearer " +:+ access_token)
                       (set_retry true (outbound config w)) in
     reply_status
       (server (wire w ++ [first; refresh_call refreshToken]) (api_call replayed))
       = Some 401%Z →
     (∃ resp, status resp = 401%Z ∧
              r.1 = Some (RejectedWith
                            (AxiosErr (mkError (Some resp) (Some replayed))))) ∧
     wire r.2 = wire w ++ [first; refresh_call refreshToken; api_call replayed]) ∧
  (∀ refreshToken,
     _retry config = false →
     reply_status (server (wire w) first) = Some 401%Z →
     localStorage w !! "refresh_token" = Some refreshToken →
     refreshToken ≠ "" →
     refreshed_token (server (wire w ++ [first]) (refresh_call refreshToken))
       = None →
     localStorage r.2
       = delete "refresh_token" (delete "access_token" (localStorage w)) ∧
     localStorage r.2 !! "access_token" = None ∧
     localStorage r.2 !! "refresh_token" = None ∧
     location_href r.2 = location_href w ++ ["/login"] ∧
     wire r.2 = wire w ++ [first; refresh_call refreshToken] ∧
     r.1 = Some (RejectedWith
                   (refresh_error refreshToken
                      (server (wire w ++ [first]) (refresh_call refreshToken))))).
Proof.
  intros first r. pose proof (api_run_total server fuel config w) as Hrun.
  fold r in Hrun. split; [|split; [|split]].
  - destruct (api_run_bounds server config w r.1 r.2 Hrun) as (? & ? & ? & _).
    done.
  - intros Hr. subst r. rewrite api_retried by done. done.
  - intros refreshToken access_token Hr H401 Hrt Hne Hok replayed H401'.
    destruct (api_run_replayed_inv server config w refreshToken access_token
                r.1 r.2 Hr H401 Hrt Hne Hok Hrun) as [Hout Hw].
    rewrite Hout, Hw. simpl. split; [|done].
    destruct (outcome_401 _ replayed H401') as (resp & _ & Hs & Ho).
    exists resp. unfold settle. fold replayed. fold first. by rewrite Ho.
  - intros refreshToken Hr H401 Hrt Hne Hfail.
    destruct (api_run_signed_out_inv server config w refreshToken
                r.1 r.2 Hr H401 Hrt Hne Hfail Hrun) as [Hout Hw].
    rewrite Hout, Hw. simpl. repeat split; try done.
    + rewrite lookup_delete_ne by done. apply lookup_delete_eq.
    + apply lookup_delete_eq.
Qed.

Lemma retry_at_most_once_witness :
  let r := api (token_server "new" "r2") 2 get_articles signed_in in
  localStorage r.2 !! "access_token" = None ∧
  localStorage r.2 !! "refresh_token" = None ∧
  location_href r.2 = ["/login"] ∧
  length (wire r.2) = 2%nat.
Proof.
  destruct (retry_at_most_once (token_server "new" "r2") 0 get_articles signed_in)
    as (_ & _ & _ & Hfail).
  destruct (Hfail "r1") as (_ & Ha & Hr & Hloc & Hwire & _);
    [reflexivity | reflexivity | reflexivity | discriminate | reflexivity |].
  split; [exact Ha|]. split; [exact Hr|]. split; [exact Hloc|].
  rewrite Hwire. reflexivity.
Defined.



(** C10. A request without the retry mark that is answered 401 while no
    refresh token is stored (or an empty one) is rejected to the caller with
    its 401 error, the request now marked as retried; the only call on the
    wire is the request itself, so no refresh call is made, and storage, the
    location and the toasts are as before: the access token stays and there
    is no redirect. *)
Theorem no_refresh_token_rejects (server : Server) (fuel : nat)
    (config : Config) (w : World) :
  _retry config = false →
  reply_status (server (wire w) (api_call (outbound config w))) = Some 401%Z →
  localStorage w !! "refresh_token" = None ∨
  localStorage w !! "refresh_token" = Some "" →
  let r := api server (S (S fuel)) config w in
  (∃ resp, server (wire w) (api_call (outbound config w)) = Answered resp ∧
           status resp = 401%Z ∧
           r.1 = Some (RejectedWith
                         (AxiosErr
                            (mkError (Some resp)
                               (Some (set_retry true (outbound config w))))))) ∧
  wire r.2 = wire w ++ [api_call (outbound config w)] ∧
  localStorage r.2 = localStorage w ∧
  location_href r.2 = location_href w ∧
  toasts r.2 = toasts w.
Proof.
  intros Hr H401 Hrt r.
  assert (Js.truthy (localStorage w !! "refresh_token") = false) as Hfalsy
    by (by destruct Hrt as [-> | ->]).
  destruct (api_run_no_token_inv server config w r.1 r.2 Hr H401 Hfalsy
              (api_run_total server fuel config w)) as (e & Ho & Hout & Hw).
  rewrite Hout, Hw. simpl. split; [|done].
  destruct (outcome_401 _ (outbound config w) H401) as (resp & Hreply & Hs & Ho').
  rewrite Ho in Ho'. injection Ho' as ->.
  by exists resp.
Qed.

Lemma no_refresh_token_rejects_witness :
  let r := api (token_server "new" "r1") 2 get_articles access_only in
  localStorage r.2 = localStorage access_only ∧
  location_href r.2 = [] ∧
  length (wire r.2) = 1%nat.
Proof.
  destruct (no_refresh_token_rejects (token_server "new" "r1") 0
              get_articles access_only)
    as (_ & Hwire & Hst & Hloc & _);
    [reflexivity | reflexivity | left; reflexivity |].
  split; [exact Hst|]. split; [exact Hloc|]. rewrite Hwire. reflexivity.
Defined.

(** C4. An error that does not take the refresh branch leaves the response
    interceptor rejected as it came, with nothing sent, stored or redirected,
    whatever the replay function is, and with exactly one toast for a 403
    (Access Denied), exactly one for a status from 500 up (Server Error), and
    none for any other status or for an error without a response.  A 403 or
    a status from 500 up never takes the refresh branch, and a whole run of
    [api] raises at most one toast. *)
Theorem forbidden_and_server_errors (server : Server)
    (k : Config → M (option Settled)) (error : AxiosError) (w : World) :
  enters_refresh error = false →
  let r := response_error_interceptor server k error w in
  r.1 = Some (RejectedWith (AxiosErr error)) ∧
  wire r.2 = wire w ∧
  localStorage r.2 = localStorage w ∧
  location_href r.2 = location_href w ∧
  (status_is error 403 = true → toasts r.2 = toasts w ++ [access_denied]) ∧
  (status_ge error 500 = true → toasts r.2 = toasts w ++ [server_error]) ∧
  (status_is error 403 = false → status_ge error 500 = false →
     toasts r.2 = toasts w) ∧
  (∀ error', status_is error' 403 = true ∨ status_ge error' 500 = true →
     enters_refresh error' = false) ∧
  (∀ fuel config,
     ∃ ts, toasts (api server (S (S fuel)) config w).2 = toasts w ++ ts ∧
           (length ts ≤ 1)%nat).
Proof.
  intros He r. subst r.
  rewrite interceptor_tail, handle_error_types_run by done. simpl.
  unfold notification.
  split; [done|]. split; [done|]. split; [done|]. split; [done|].
  split; [|split; [|split; [|split]]].
  - by intros ->.
  - intros H5. destruct (status_is error 403) eqn:H3; [|by rewrite H5].
    unfold status_is, status_ge in *.
    destruct (response error); [lia|done].
  - intros -> ->. apply app_nil_r.
  - apply other_status_skips_refresh.
  - intros fuel config.
    apply (api_run_toasts server config w _ _ (api_run_total server fuel config w)).
Qed.

Lemma forbidden_and_server_errors_witness :
  let r := api (constant_server 403) 2 get_articles signed_in in
  toasts r.2 = [access_denied] ∧ length (wire r.2) = 1%nat.
Proof.
  pose (c := outbound get_articles signed_in).
  pose (w1 := sent_world signed_in (api_call c)).
  pose (e := mkError (Some (mkResponse 403 (Some ∅))) (Some c)).
  destruct (forbidden_and_server_errors (constant_server 403)
              (api (constant_server 403) 1) e w1)
    as (_ & Hwire & _ & _ & H403 & _); [reflexivity|].
  split.
  - exact (H403 eq_refl).
  - change (length (wire (response_error_interceptor (constant_server 403)
                            (api (constant_server 403) 1) e w1).2) = 1%nat).
    rewrite Hwire. reflexivity.
Defined.

(** C3, as amended. A request that brings no [Authorization] header of its
    own leaves the request interceptor with [Bearer <token>] exactly when the
    stored access token is a non-empty string, and with no such header when
    the entry is missing or empty; the interceptor leaves the world as it
    was, and what it returns is the first thing [api] puts on the wire. *)
Theorem bearer_iff_nonempty_token (server : Server) (fuel : nat)
    (config : Config) (w : World) :
  authorization config = None →
  (∀ token, localStorage w !! "access_token" = Some token → token ≠ "" →
     authorization (outbound config w) = Some ("Bearer " +:+ token)) ∧
  (localStorage w !! "access_token" = None ∨
   localStorage w !! "access_token" = Some "" →
     authorization (outbound config w) = None) ∧
  (request_interceptor (merge_defaults config) w).2 = w ∧
  ∃ later, wire (api server (S (S fuel)) config w).2
           = wire w ++ api_call (outbound config w) :: later.
Proof.
  intros Hnone. split; [|split; [|split]].
  - intros token Htok Hne. apply truthy_string_true in Hne.
    unfold outbound. rewrite request_interceptor_run, Htok, Hne. simpl.
    apply lookup_insert_eq.
  - unfold outbound. rewrite request_interceptor_run.
    intros [-> | ->]; simpl; by rewrite authorization_merge_defaults.
  - by rewrite request_interceptor_run.
  - apply (api_run_first_call server config w _ _
             (api_run_total server fuel config w)).
Qed.

Lemma bearer_iff_nonempty_token_witness :
  authorization (outbound get_articles signed_in) = Some "Bearer old" ∧
  authorization (outbound get_articles empty_token) = None.
Proof.
  split.
  - destruct (bearer_iff_nonempty_token (constant_server 200) 0
                get_articles signed_in eq_refl) as [Hsome _].
    apply (Hsome "old"); [reflexivity | discriminate].
  - destruct (bearer_iff_nonempty_token (constant_server 200) 0
                get_articles empty_token eq_refl) as (_ & Hnone & _).
    apply Hnone. right. reflexivity.
Defined.

(** C3, as stated, fails: with the empty string stored under
    [access_token] the entry is present, yet the request goes out without an
    [Authorization] header. *)
Lemma bearer_empty_token_counterexample : ¬ bearer_iff_stored_as_stated.
Proof.
  intros H.
  destruct (H get_articles empty_token eq_refl) as [Hsome _].
  specialize (Hsome "" eq_refl).
  assert (authorization (outbound get_articles empty_token) = None) as Hnone
    by reflexivity.
  rewrite Hnone in Hsome. discriminate.
Qed.

(** * Further properties of the code *)

(** ** HTTP client *)

Section MoreRunFacts.

Variable server : Server.

Lemma enters_refresh_401 (reply : WireReply) (c : Config) (e : AxiosError) :
  outcome reply c = inr e →
  enters_refresh e = true →
  reply_status reply = Some 401%Z.
Proof.
  intros Ho He. destruct (outcome_error _ _ _ Ho) as [Hc Hr].
  unfold enters_refresh, status_is in He. rewrite Hc, Hr in He.
  destruct reply as [r|]; [|done]. simpl.
  apply andb_true_iff in He as [He _]. apply Z.eqb_eq in He. by rewrite He.
Qed.

Lemma settle_outcome (reply : WireReply) (c : Config) :
  settle reply c = match outcome reply c with
                   | inl r => Fulfilled r
                   | inr e => RejectedWith (AxiosErr e)
                   end.
Proof. done. Qed.

(** X1. Only a 401 starts the refresh machinery: when the first answer is
    anything else (any other status, or no answer at all), the run puts
    exactly the request on the wire, leaves storage and the location alone,
    and settles as the adapter settled. *)
Theorem only_401_triggers_refresh (fuel : nat) (config : Config) (w : World) :
  reply_status (server (wire w) (api_call (outbound config w))) ≠ Some 401%Z →
  let r := api server (S (S fuel)) config w in
  r.1 = Some (settle (server (wire w) (api_call (outbound config w)))
                     (outbound config w)) ∧
  wire r.2 = wire w ++ [api_call (outbound config w)] ∧
  localStorage r.2 = localStorage w ∧
  location_href r.2 = location_href w.
Proof.
  intros Hne r. pose proof (api_run_total server fuel config w) as Hrun.
  subst r. destruct (api server (S (S fuel)) config w) as [out w'].
  simpl in *. rewrite settle_outcome.
  inversion Hrun as [resp Ho|e Ho He|e Ho He|e rt Ho He|e rt tok c2 reply Ho He];
    subst; try (by destruct Hne; eapply enters_refresh_401).
  - by rewrite Ho.
  - by rewrite Ho.
Qed.

(** X2. A request that gets no answer (transport failure) is rejected with
    an error that has no response, and the client shows no toast for it,
    sends nothing else and stores nothing. *)
Theorem transport_failure_is_silent (fuel : nat) (config : Config) (w : World) :
  server (wire w) (api_call (outbound config w)) = NoAnswer →
  api server (S fuel) config w =
    (Some (RejectedWith (AxiosErr (mkError None (Some (outbound config w))))),
     sent_world w (api_call (outbound config w))).
Proof.
  intros Hno. rewrite api_step. simpl. rewrite Hno. simpl.
  rewrite interceptor_tail, handle_error_types_run by done.
  unfold notified, notification. simpl. by rewrite app_nil_r.
Qed.

(** X3. Whatever the backend answers, a run of [api] changes no storage
    entry other than the two tokens. *)
Theorem only_tokens_are_written (fuel : nat) (config : Config) (w : World)
    (k : string) :
  k ≠ "access_token" →
  k ≠ "refresh_token" →
  localStorage (api server (S (S fuel)) config w).2 !! k = localStorage w !! k.
Proof.
  intros Ha Hr. pose proof (api_run_total server fuel config w) as Hrun.
  destruct (api server (S (S fuel)) config w) as [out w']. simpl in *.
  inversion Hrun; subst; simpl; try done.
  - by rewrite !lookup_delete_ne.
  - by rewrite lookup_insert_ne.
Qed.

End MoreRunFacts.

Lemma only_401_triggers_refresh_witness :
  let r := api (constant_server 404) 2 get_articles signed_in in
  length (wire r.2) = 1%nat ∧ localStorage r.2 = localStorage signed_in.
Proof.
  destruct (only_401_triggers_refresh (constant_server 404) 0 get_articles signed_in)
    as (_ & Hwire & Hst & _); [discriminate|].
  split; [by rewrite Hwire | exact Hst].
Defined.

Lemma transport_failure_is_silent_witness :
  toasts (api (λ _ _, NoAnswer) 1 get_articles signed_in).2 = [].
Proof.
  by rewrite (transport_failure_is_silent (λ _ _, NoAnswer) 0 get_articles signed_in).
Defined.

Lemma only_tokens_are_written_witness :
  localStorage (api (token_server "new" "r2") 2 get_articles signed_in).2 !! "theme"
  = localStorage signed_in !! "theme".
Proof.
  by apply (only_tokens_are_written (token_server "new" "r2") 0 get_articles
              signed_in "theme").
Defined.

(** X4. A non-empty stored access token replaces whatever [Authorization]
    header the caller put on the request; with no token, or an empty one, the
    caller's header (or its absence) goes out unchanged. *)
Theorem stored_token_overrides_header (config : Config) (w : World) :
  (∀ token, localStorage w !! "access_token" = Some token → token ≠ "" →
     authorization (outbound config w) = Some ("Bearer " +:+ token)) ∧
  (Js.truthy (localStorage w !! "access_token") = false →
     authorization (outbound config w) = authorization config).
Proof.
  unfold outbound. rewrite request_interceptor_run. simpl. split.
  - intros token -> Hne%truthy_string_true. rewrite Hne.
    apply lookup_insert_eq.
  - destruct (localStorage w !! "access_token") as [token|]; simpl.
    + intros ->. apply authorization_merge_defaults.
    + intros _. apply authorization_merge_defaults.
Qed.

Lemma stored_token_overrides_header_witness :
  authorization
    (outbound (mkConfig "/articles" "get" {["Authorization" := "Basic abc"]} false)
       signed_in)
  = Some "Bearer old".
Proof.
  destruct (stored_token_overrides_header
              (mkConfig "/articles" "get" {["Authorization" := "Basic abc"]} false)
              signed_in) as [Hset _].
  apply Hset; [reflexivity | discriminate].
Defined.

(** X6. Passing a request through the instance defaults and the request
    interceptor twice, in the same world, is the same as once: a replay picks
    up nothing new. *)
Theorem outbound_idempotent (config : Config) (w : World) :
  outbound (outbound config w) w = outbound config w.
Proof.
  unfold outbound at 1.
  rewrite (merged_fixed _ (merged_outbound config w)).
  rewrite request_interceptor_run. simpl.
  unfold outbound. rewrite request_interceptor_run. simpl.
  destruct (localStorage w !! "access_token") as [token|]; [|done].
  destruct (Js.truthy_string token); [|done].
  unfold set_header. simpl. by rewrite insert_insert_eq.
Qed.

Section RefreshEdges.

Variable server : Server.

(** X7. A refresh answer whose body has no [access_token] field is taken
    as a success all the same: the text [undefined] is stored as the access
    token and the request is replayed with the header [Bearer undefined]. *)
Theorem missing_token_field_stores_undefined (fuel : nat) (config : Config)
    (w : World) (refreshToken : string) (resp : Response)
    (body : gmap string Js.Val) :
  _retry config = false →
  reply_status (server (wire w) (api_call (outbound config w))) = Some 401%Z →
  localStorage w !! "refresh_token" = Some refreshToken →
  refreshToken ≠ "" →
  server (wire w ++ [api_call (outbound config w)]) (refresh_call refreshToken)
    = Answered resp →
  validateStatus (status resp) = true →
  data resp = Some body →
  body !! "access_token" = None →
  let r := api server (S (S fuel)) config w in
  localStorage r.2 !! "access_token" = Some "undefined" ∧
  ∃ replayed, last (wire r.2) = Some (api_call replayed) ∧
              authorization replayed = Some "Bearer undefined" ∧
              location_href r.2 = location_href w.
Proof.
  intros Hr H401 Hrt Hne Hresp H2xx Hbody Hfield r.
  assert (refreshed_token
            (server (wire w ++ [api_call (outbound config w)])
               (refresh_call refreshToken)) = Some "undefined") as Hok.
  { rewrite Hresp. simpl. rewrite H2xx, Hbody. simpl.
    unfold Js.get. by rewrite Hfield. }
  destruct (api_run_replayed_inv server config w refreshToken "undefined"
              r.1 r.2 Hr H401 Hrt Hne Hok (api_run_total server fuel config w))
    as [_ Hw].
  rewrite Hw. simpl. split; [apply lookup_insert_eq|].
  eexists. split; [|split; [|done]].
  - rewrite last_app. reflexivity.
  - apply lookup_insert_eq.
Qed.

(** X8. A refresh answer with status 2xx and a null body is handled as a
    failed refresh: reading the token throws, so both tokens are removed, the
    location is set to [/login], nothing is replayed and the caller gets the
    [TypeError]. *)
Theorem null_refresh_body_signs_out (fuel : nat) (config : Config)
    (w : World) (refreshToken : string) (resp : Response) :
  _retry config = false →
  reply_status (server (wire w) (api_call (outbound config w))) = Some 401%Z →
  localStorage w !! "refresh_token" = Some refreshToken →
  refreshToken ≠ "" →
  server (wire w ++ [api_call (outbound config w)]) (refresh_call refreshToken)
    = Answered resp →
  validateStatus (status resp) = true →
  data resp = None →
  api server (S (S fuel)) config w =
    (Some (RejectedWith TypeError),
     mkWorld (delete "refresh_token" (delete "access_token" (localStorage w)))
             (location_href w ++ ["/login"]) (toasts w)
             (wire w ++ [api_call (outbound config w); refresh_call refreshToken])).
Proof.
  intros Hr H401 Hrt Hne Hresp H2xx Hbody.
  assert (refreshed_token
            (server (wire w ++ [api_call (outbound config w)])
               (refresh_call refreshToken)) = None) as Hfail.
  { rewrite Hresp. simpl. by rewrite H2xx, Hbody. }
  destruct (api_run_signed_out_inv server config w refreshToken _ _
              Hr H401 Hrt Hne Hfail (api_run_total server fuel config w))
    as [Hout Hw].
  destruct (api server (S (S fuel)) config w) as [out w']. simpl in *.
  rewrite Hout, Hw. f_equal. f_equal. f_equal.
  unfold refresh_error, outcome. by rewrite Hresp, H2xx.
Qed.

(** X9. When the replay after a successful refresh fails, with whatever
    status or with no answer, the session stays: the new access token and the
    refresh token are in storage, the location is not touched, and the
    caller gets the error of the replay, after the toast its status calls
    for. *)
Theorem failed_replay_keeps_session (fuel : nat) (config : Config) (w : World)
    (refreshToken access_token : string) (e : AxiosError) :
  _retry config = false →
  reply_status (server (wire w) (api_call (outbound config w))) = Some 401%Z →
  localStorage w !! "refresh_token" = Some refreshToken →
  refreshToken ≠ "" →
  refreshed_token
    (server (wire w ++ [api_call (outbound config w)]) (refresh_call refreshToken))
    = Some access_token →
  let replayed := set_header "Authorization" ("Bearer " +:+ access_token)
                    (set_retry true (outbound config w)) in
  outcome (server (wire w ++ [api_call (outbound config w);
                              refresh_call refreshToken]) (api_call replayed))
          replayed = inr e →
  let r := api server (S (S fuel)) config w in
  r.1 = Some (RejectedWith (AxiosErr e)) ∧
  localStorage r.2 !! "access_token" = Some access_token ∧
  localStorage r.2 !! "refresh_token" = Some refreshToken ∧
  location_href r.2 = location_href w ∧
  toasts r.2 = toasts w ++ notification e.
Proof.
  intros Hr H401 Hrt Hne Hok replayed He r.
  destruct (api_run_replayed_inv server config w refreshToken access_token
              r.1 r.2 Hr H401 Hrt Hne Hok (api_run_total server fuel config w))
    as [Hout Hw].
  fold replayed in Hout, Hw. rewrite Hout, Hw, settle_outcome, He. simpl.
  repeat split.
  - apply lookup_insert_eq.
  - by rewrite lookup_insert_ne.
Qed.

End RefreshEdges.

Lemma missing_token_field_stores_undefined_witness :
  let r := api (scripted_server [answer 401 ∅; answer 200 ∅; answer 200 ∅])
               2 get_articles signed_in in
  localStorage r.2 !! "access_token" = Some "undefined".
Proof.
  destruct (missing_token_field_stores_undefined
              (scripted_server [answer 401 ∅; answer 200 ∅; answer 200 ∅])
              0 get_articles signed_in "r1" (mkResponse 200 (Some ∅)) ∅)
    as [Hst _];
    [reflexivity | reflexivity | reflexivity | discriminate | reflexivity
    | reflexivity | reflexivity | reflexivity |].
  exact Hst.
Defined.

Lemma null_refresh_body_signs_out_witness :
  let r := api (scripted_server [answer 401 ∅; Answered (mkResponse 200 None)])
               2 get_articles signed_in in
  r.1 = Some (RejectedWith TypeError) ∧ location_href r.2 = ["/login"].
Proof.
  rewrite (null_refresh_body_signs_out
             (scripted_server [answer 401 ∅; Answered (mkResponse 200 None)])
             0 get_articles signed_in "r1" (mkResponse 200 None));
    [split; reflexivity | reflexivity | reflexivity | reflexivity | discriminate
    | reflexivity | reflexivity | reflexivity].
Defined.

Lemma failed_replay_keeps_session_witness :
  let r := api (scripted_server
                  [answer 401 ∅; answer 200 {["access_token" := Js.Str "new"]};
                   answer 500 ∅])
               2 get_articles signed_in in
  localStorage r.2 !! "access_token" = Some "new" ∧
  location_href r.2 = [] ∧
  toasts r.2 = [server_error].
Proof.
  pose (srv := scripted_server
                 [answer 401 ∅; answer 200 {["access_token" := Js.Str "new"]};
                  answer 500 ∅]).
  pose (replayed := set_header "Authorization" "Bearer new"
                      (set_retry true (outbound get_articles signed_in))).
  destruct (failed_replay_keeps_session srv 0 get_articles signed_in "r1" "new"
              (mkError (Some (mkResponse 500 (Some ∅))) (Some replayed)))
    as (_ & Hst & _ & Hloc & Ht);
    [reflexivity | reflexivity | reflexivity | discriminate | reflexivity
    | reflexivity |].
  split; [exact Hst|]. split; [exact Hloc | exact Ht].
Defined.

(** ** Session context: [checkAuth], [login], [register] *)

Section ProviderFacts.

Import AuthContext.

Variable as_user : Js.Val → option User.t.

#[local] Arguments api : simpl never.

Lemma getMe_run (server : Server) (fuel : nat) (w : World) :
  getMe server fuel w =
    let r := api server fuel me_request w in
    (match r.1 with
     | None => Pending
     | Some (Fulfilled response) =>
         match data response with
         | Some body => Resolved (Js.get body "user")
         | None => Rejected TypeError
         end
     | Some (RejectedWith error) => Rejected error
     end, r.2).
Proof.
  unfold getMe, bind. fold me_request.
  destruct (api server fuel me_request w) as [[[response|error]|] w']; simpl; try done.
  by destruct (data response).
Qed.

(** X10. The session check clears [loading] exactly when it gets past its
    [await]: for any implementation of [getMe], [loading] is false afterwards
    when no call is made (no access token, or an empty one) and when the call
    settles, resolved or rejected; when the promise of the call never
    settles, the check stops at the [await] and the state, [loading]
    included, stays as it was. *)
Theorem checkAuth_loading (authApi_getMe : M (Promise Js.Val))
    (s : State) (w : World) :
  let r := checkAuth as_user authApi_getMe s w in
  (Js.truthy (localStorage w !! "access_token") = false →
     loading r.1 = false) ∧
  (∀ p w', Js.truthy (localStorage w !! "access_token") = true →
     authApi_getMe w = (p, w') → p ≠ Pending →
     loading r.1 = false) ∧
  (∀ w', Js.truthy (localStorage w !! "access_token") = true →
     authApi_getMe w = (Pending, w') →
     r = (s, w')).
Proof.
  unfold checkAuth, bind, getItem. simpl. split; [|split].
  - by intros ->.
  - intros p w' -> Hget Hp. rewrite Hget. by destruct p.
  - intros w' -> Hget. by rewrite Hget.
Qed.

(** X11. For any implementation of [getMe]: without an access token (or
    with an empty one) the check calls nothing and leaves the world as it is;
    when [getMe] rejects, both tokens are removed from whatever storage the
    call left, and the current user is not changed. *)
Theorem checkAuth_failure_clears_tokens (authApi_getMe : M (Promise Js.Val))
    (s : State) (w : World) :
  (Js.truthy (localStorage w !! "access_token") = false →
     checkAuth as_user authApi_getMe s w = (mkState (user s) false, w)) ∧
  (∀ error w',
     Js.truthy (localStorage w !! "access_token") = true →
     authApi_getMe w = (Rejected error, w') →
     let r := checkAuth as_user authApi_getMe s w in
     r.1 = mkState (user s) false ∧
     localStorage r.2 !! "access_token" = None ∧
     localStorage r.2 !! "refresh_token" = None ∧
     (∀ k, k ≠ "access_token" → k ≠ "refresh_token" →
        localStorage r.2 !! k = localStorage w' !! k) ∧
     wire r.2 = wire w' ∧ location_href r.2 = location_href w').
Proof.
  unfold checkAuth, bind, getItem. simpl. split.
  - by intros ->.
  - intros error w' -> Hget. rewrite Hget. simpl. repeat split.
    + rewrite lookup_delete_ne by done. apply lookup_delete_eq.
    + apply lookup_delete_eq.
    + intros k Ha Hr. by rewrite !lookup_delete_ne.
Qed.

(** X12. A session whose access token has expired is restored without the
    user: when [/auth/me] is answered 401, the stored refresh token buys a
    new access token and the replay is answered 2xx with a body, the check
    ends with the user of that body, the new access token in storage, the
    refresh token kept and no redirect. *)
Theorem checkAuth_restores_expired_session (server : Server) (fuel : nat)
    (s : State) (w : World) (old refreshToken access_token : string)
    (resp : Response) (body : gmap string Js.Val) :
  localStorage w !! "access_token" = Some old →
  old ≠ "" →
  reply_status (server (wire w) (api_call (outbound me_request w))) = Some 401%Z →
  localStorage w !! "refresh_token" = Some refreshToken →
  refreshToken ≠ "" →
  refreshed_token
    (server (wire w ++ [api_call (outbound me_request w)])
       (refresh_call refreshToken)) = Some access_token →
  let replayed := set_header "Authorization" ("Bearer " +:+ access_token)
                    (set_retry true (outbound me_request w)) in
  server (wire w ++ [api_call (outbound me_request w); refresh_call refreshToken])
         (api_call replayed) = Answered resp →
  validateStatus (status resp) = true →
  data resp = Some body →
  let r := checkAuth as_user (getMe server (S (S fuel))) s w in
  r.1 = mkState (as_user (Js.get body "user")) false ∧
  localStorage r.2 = <["access_token" := access_token]> (localStorage w) ∧
  localStorage r.2 !! "refresh_token" = Some refreshToken ∧
  location_href r.2 = location_href w.
Proof.
  intros Hold Hne H401 Hrt Hrne Hok replayed Hresp H2xx Hbody r. subst r.
  apply truthy_string_true in Hne.
  unfold checkAuth, bind, getItem. simpl. rewrite Hold. simpl. rewrite Hne.
  rewrite getMe_run. simpl.
  destruct (api_run_replayed_inv server me_request w refreshToken access_token
              _ _ eq_refl H401 Hrt Hrne Hok
              (api_run_total server fuel me_request w)) as [Hout Hw].
  fold replayed in Hout, Hw. rewrite Hout, Hw, Hresp. unfold settle. simpl.
  rewrite H2xx, Hbody. simpl. repeat split.
  by rewrite lookup_insert_ne.
Qed.

(** X13. When [/auth/me] is answered 401 and there is no refresh token
    (or an empty one), the HTTP client only rejects, and the session check
    then removes the access token: one request was sent, no refresh call, no
    redirect, and the user is left as it was with [loading] false. *)
Theorem checkAuth_drops_rejected_token (server : Server) (fuel : nat)
    (s : State) (w : World) (old : string) :
  localStorage w !! "access_token" = Some old →
  old ≠ "" →
  reply_status (server (wire w) (api_call (outbound me_request w))) = Some 401%Z →
  Js.truthy (localStorage w !! "refresh_token") = false →
  let r := checkAuth as_user (getMe server (S (S fuel))) s w in
  r.1 = mkState (user s) false ∧
  localStorage r.2 !! "access_token" = None ∧
  wire r.2 = wire w ++ [api_call (outbound me_request w)] ∧
  location_href r.2 = location_href w.
Proof.
  intros Hold Hne H401 Hrt r. subst r.
  apply truthy_string_true in Hne.
  unfold checkAuth, bind, getItem. simpl. rewrite Hold. simpl. rewrite Hne.
  rewrite getMe_run. simpl.
  destruct (api_run_no_token_inv server me_request w _ _ eq_refl H401 Hrt
              (api_run_total server fuel me_request w)) as (e & _ & Hout & Hw).
  rewrite Hout, Hw. simpl. repeat split.
  rewrite lookup_delete_ne by done. apply lookup_delete_eq.
Qed.

End ProviderFacts.

Lemma checkAuth_loading_witness :
  AuthContext.checkAuth sample_user (λ w, (Pending, w))
    (AuthContext.mkState None true) signed_in
  = (AuthContext.mkState None true, signed_in).
Proof.
  destruct (checkAuth_loading sample_user (λ w, (Pending, w))
              (AuthContext.mkState None true) signed_in) as (_ & _ & Hpending).
  apply Hpending; reflexivity.
Defined.

Lemma checkAuth_failure_clears_tokens_witness :
  let r := AuthContext.checkAuth sample_user (getMe (me_server "new" "r2") 2)
             (AuthContext.mkState None true) signed_in in
  localStorage r.2 !! "access_token" = None ∧
  localStorage r.2 !! "refresh_token" = None.
Proof.
  destruct (checkAuth_failure_clears_tokens sample_user
              (getMe (me_server "new" "r2") 2)
              (AuthContext.mkState None true) signed_in) as [_ Hrej].
  destruct (Hrej (AxiosErr (mkError (Some (mkResponse 401 None))
                              (Some (refresh_request "r1"))))
              (api (me_server "new" "r2") 2 me_request signed_in).2)
    as (_ & Ha & Hr & _); [reflexivity | reflexivity |].
  split; [exact Ha | exact Hr].
Defined.

Lemma checkAuth_restores_expired_session_witness :
  let r := AuthContext.checkAuth sample_user (getMe (me_server "new" "r1") 2)
             (AuthContext.mkState None true) signed_in in
  AuthContext.isModerator r.1 = true ∧
  localStorage r.2 !! "access_token" = Some "new".
Proof.
  destruct (checkAuth_restores_expired_session sample_user (me_server "new" "r1")
              0 (AuthContext.mkState None true) signed_in "old" "r1" "new"
              (mkResponse 200 (Some {["user" := Js.Str "alice"]}))
              {["user" := Js.Str "alice"]})
    as (Hs & Hst & _);
    [reflexivity | discriminate | reflexivity | reflexivity | discriminate
    | reflexivity | reflexivity | reflexivity | reflexivity |].
  split.
  - rewrite Hs. reflexivity.
  - rewrite Hst. apply lookup_insert_eq.
Defined.

Lemma checkAuth_drops_rejected_token_witness :
  let r := AuthContext.checkAuth sample_user (getMe (me_server "new" "r1") 2)
             (AuthContext.mkState None true) access_only in
  localStorage r.2 !! "access_token" = None ∧ location_href r.2 = [].
Proof.
  destruct (checkAuth_drops_rejected_token sample_user (me_server "new" "r1") 0
              (AuthContext.mkState None true) access_only "old")
    as (_ & Ha & _ & Hloc);
    [reflexivity | discriminate | reflexivity | reflexivity |].
  split; [exact Ha | exact Hloc].
Defined.

Section SignInFacts.

Import AuthContext.

Variable as_user : Js.Val → option User.t.
Variable authApi_login : string → string → M (Promise (option (gmap string Js.Val))).
Variable authApi_register :
  string → string → string → M (Promise (option (gmap string Js.Val))).

(** X14. When the login call resolves with a body, [login] writes the
    body's two tokens over whatever the call left in storage, makes the
    body's user the current user, shows the welcome toast once and resolves;
    it sends nothing itself. *)
Theorem login_stores_session (email password : string) (s : State) (w w' : World)
    (response : gmap string Js.Val) :
  authApi_login email password w = (Resolved (Some response), w') →
  let r := login as_user authApi_login email password s w in
  r.1 = (mkState (as_user (Js.get response "user")) (loading s), Resolved tt) ∧
  localStorage r.2 !! "access_token"
    = Some (Js.to_string (Js.get response "access_token")) ∧
  localStorage r.2 !! "refresh_token"
    = Some (Js.to_string (Js.get response "refresh_token")) ∧
  (∀ k, k ≠ "access_token" → k ≠ "refresh_token" →
     localStorage r.2 !! k = localStorage w' !! k) ∧
  toasts r.2 = toasts w' ++ [welcome_back] ∧
  wire r.2 = wire w'.
Proof.
  intros Hcall. unfold login, bind. rewrite Hcall. simpl. repeat split.
  - rewrite lookup_insert_ne by done. apply lookup_insert_eq.
  - apply lookup_insert_eq.
  - intros k Ha Hr. by rewrite !lookup_insert_ne.
Qed.

(** X15. When the login call rejects, or resolves with a null body (so
    that reading the token throws), [login] stores nothing and leaves the
    current user alone; it shows exactly one Login Failed toast, whose text
    is the message of the error's response body when that is a non-empty
    string and [Login failed] otherwise, and rejects with the same error. *)
Theorem login_failure_reports (email password : string) (s : State) (w w' : World)
    (error : Thrown) :
  authApi_login email password w = (Rejected error, w') ∨
  (authApi_login email password w = (Resolved None, w') ∧ error = TypeError) →
  let r := login as_user authApi_login email password s w in
  r.1 = (s, Rejected error) ∧
  localStorage r.2 = localStorage w' ∧
  wire r.2 = wire w' ∧
  (∃ text, toasts r.2 = toasts w' ++ [login_failed text] ∧
           (∀ m, response_message error = Js.Str m → m ≠ "" → text = m) ∧
           ((∀ m, response_message error = Js.Str m → m = "") →
              text = "Login failed")).
Proof.
  intros Hcall. unfold login, bind.
  assert (∀ v, (∀ m, v = Js.Str m → m ≠ "" → or_else v "Login failed" = m) ∧
               ((∀ m, v = Js.Str m → m = "") → or_else v "Login failed"
                                                 = "Login failed")) as Htext.
  { intros [| |m]; simpl; split; try done.
    - intros m' [= <-] Hne%truthy_string_true. by rewrite Hne.
    - intros Hm. by rewrite (Hm m eq_refl). }
  destruct Hcall as [Hcall | [Hcall ->]]; rewrite Hcall; simpl;
    (split; [done|]; split; [done|]; split; [done|]);
    eexists; (split; [done|]); apply Htext.
Qed.

(** X16. [register] treats the answer of its call as [login] does: a body
    gives both tokens to storage and the body's user to the state, with the
    account-created toast; a rejection stores nothing, keeps the state, shows
    one Registration Failed toast and is passed on to the caller. *)
Theorem register_outcomes (username email password : string) (s : State)
    (w w' : World) :
  let r := register as_user authApi_register username email password s w in
  (∀ response,
     authApi_register username email password w = (Resolved (Some response), w') →
     r.1 = (mkState (as_user (Js.get response "user")) (loading s), Resolved tt) ∧
     localStorage r.2
       = <["refresh_token" := Js.to_string (Js.get response "refresh_token")]>
           (<["access_token" := Js.to_string (Js.get response "access_token")]>
              (localStorage w')) ∧
     toasts r.2 = toasts w' ++ [welcome]) ∧
  (∀ error,
     authApi_register username email password w = (Rejected error, w') →
     r.1 = (s, Rejected error) ∧
     localStorage r.2 = localStorage w' ∧
     toasts r.2
       = toasts w' ++ [registration_failed
                         (or_else (response_message error) "Registration failed")]).
Proof.
  unfold register, bind. split.
  - intros response ->. done.
  - intros error ->. done.
Qed.

End SignInFacts.

Lemma login_stores_session_witness :
  let call : string → string → M (Promise (option (gmap string Js.Val))) :=
    λ _ _ w, (Resolved (Some {["access_token" := Js.Str "a1";
                               "refresh_token" := Js.Str "r1";
                               "user" := Js.Str "alice"]}), w) in
  let r := AuthContext.login sample_user call "alice@example.org" "pw"
             (AuthContext.mkState None false) (mkWorld ∅ [] [] []) in
  localStorage r.2 !! "access_token" = Some "a1" ∧
  AuthContext.isAuthenticated r.1.1 = true.
Proof.
  intros call.
  destruct (login_stores_session sample_user call "alice@example.org" "pw"
              (AuthContext.mkState None false) (mkWorld ∅ [] [] [])
              (mkWorld ∅ [] [] [])
              {["access_token" := Js.Str "a1"; "refresh_token" := Js.Str "r1";
                "user" := Js.Str "alice"]} eq_refl) as (_ & Ha & _).
  split; [exact Ha | reflexivity].
Defined.

Lemma login_failure_reports_witness :
  let error := AxiosErr (mkError
                 (Some (mkResponse 401
                          (Some {["message" := Js.Str "Invalid credentials"]})))
                 (Some (mkConfig "/auth/login" "post" ∅ true))) in
  let call : string → string → M (Promise (option (gmap string Js.Val))) :=
    λ _ _ w, (Rejected error, w) in
  let r := AuthContext.login sample_user call "alice@example.org" "bad"
             (AuthContext.mkState None false) (mkWorld ∅ [] [] []) in
  toasts r.2 = [AuthContext.login_failed "Invalid credentials"] ∧
  localStorage r.2 = ∅.
Proof.
  intros error call.
  destruct (login_failure_reports sample_user call "alice@example.org" "bad"
              (AuthContext.mkState None false) (mkWorld ∅ [] [] [])
              (mkWorld ∅ [] [] []) error (or_introl eq_refl))
    as (_ & Hst & _ & text & Ht & Hm & _).
  split; [|exact Hst].
  rewrite Ht. rewrite (Hm "Invalid credentials"); [reflexivity | reflexivity |].
  discriminate.
Defined.

Lemma register_outcomes_witness :
  let call : string → string → string → M (Promise (option (gmap string Js.Val))) :=
    λ _ _ _ w, (Rejected TypeError, w) in
  let r := AuthContext.register sample_user call "bob" "bob@example.org" "pw"
             (AuthContext.mkState None false) (mkWorld ∅ [] [] []) in
  toasts r.2 = [AuthContext.registration_failed "Registration failed"].
Proof.
  intros call.
  destruct (register_outcomes sample_user call "bob" "bob@example.org" "pw"
              (AuthContext.mkState None false) (mkWorld ∅ [] [] [])
              (mkWorld ∅ [] [] [])) as [_ Hrej].
  destruct (Hrej TypeError eq_refl) as (_ & _ & Ht). exact Ht.
Defined.

(** ** Layout *)

Lemma trim_start_head (s : string) :
  Js.trim_start s = "" ∨
  ∃ c r, Js.trim_start s = String c r ∧ Js.is_white_space c = false.
Proof.
  induction s as [|c r IH]; simpl; [by left|].
  destruct (Js.is_white_space c) eqn:Hc; [done|]. right. eauto.
Qed.

Lemma trim_end_head (c : Ascii.ascii) (r : string) :
  Js.is_white_space c = false →
  ∃ r', Js.trim_end (String c r) = String c r'.
Proof.
  intros Hc. simpl. destruct (Js.trim_end r); rewrite ?Hc; eauto.
Qed.

Lemma trim_end_idempotent (s : string) :
  Js.trim_end (Js.trim_end s) = Js.trim_end s.
Proof.
  induction s as [|c r IH]; simpl; [done|].
  destruct (Js.trim_end r) as [|d t] eqn:Ht.
  - destruct (Js.is_white_space c) eqn:Hc; simpl; [done|]. by rewrite Hc.
  - change (Js.trim_end (String c (String d t)))
      with (match Js.trim_end (String d t) with
            | "" => if Js.is_white_space c then "" else String c ""
            | r' => String c r'
            end).
    by rewrite IH.
Qed.

Lemma trim_idempotent (s : string) : Js.trim (Js.trim s) = Js.trim s.
Proof.
  unfold Js.trim.
  destruct (trim_start_head s) as [-> | (c & r & -> & Hc)]; [done|].
  destruct (trim_end_head c r Hc) as [r' Hr'].
  assert (Js.trim_start (Js.trim_end (String c r)) = Js.trim_end (String c r))
    as ->.
  { rewrite Hr'. simpl. by rewrite Hc. }
  apply trim_end_idempotent.
Qed.

(** X17. The search box ignores white space around the query: a query
    that is blank starts no navigation, any other starts exactly one, and the
    target is the same as for the trimmed query. *)
Theorem handleSearch_trims (encodeURIComponent : string → string) (q : string) :
  (TopicDetail.blank q = true → Layout.handleSearch encodeURIComponent q = []) ∧
  (TopicDetail.blank q = false →
     Layout.handleSearch encodeURIComponent q
     = ["/search?q=" +:+ encodeURIComponent (Js.trim q)]) ∧
  Layout.handleSearch encodeURIComponent (Js.trim q)
  = Layout.handleSearch encodeURIComponent q.
Proof.
  unfold Layout.handleSearch, TopicDetail.blank. rewrite trim_idempotent.
  destruct (Js.truthy_string (Js.trim q)); done.
Qed.

Lemma handleSearch_trims_witness :
  Layout.handleSearch (λ s, s) "  naruto " = ["/search?q=naruto"].
Proof.
  destruct (handleSearch_trims (λ s, s) "  naruto ") as (_ & Hgo & _).
  apply Hgo. reflexivity.
Defined.

(** X18. Logging out from the header goes to the home page and closes the
    protected routes: after [handleLogout] both tokens are gone, the one
    navigation is to [/], and every route behind [PrivateRoute] now redirects
    to [/login], keeping the location it was asked for. *)
Theorem logout_closes_protected_routes {Node : Type} (s : AuthContext.State)
    (w : World) (props : PrivateRoute.Props Node)
    (location : PrivateRoute.Location) :
  AuthContext.loading s = false →
  let r := Layout.handleLogout s w in
  r.1.2 = ["/"] ∧
  localStorage r.2 !! "access_token" = None ∧
  localStorage r.2 !! "refresh_token" = None ∧
  PrivateRoute.PrivateRoute props (AuthContext.useAuth r.1.1) location
  = PrivateRoute.Navigate "/login" (Some location) true.
Proof.
  intros Hl. cbn -[delete lookup]. repeat split.
  - rewrite lookup_delete_ne by done. apply lookup_delete_eq.
  - apply lookup_delete_eq.
  - unfold PrivateRoute.PrivateRoute, AuthContext.useAuth. simpl. by rewrite Hl.
Qed.

Lemma logout_closes_protected_routes_witness :
  let r := Layout.handleLogout
             (AuthContext.mkState (Some (alice RoleAdmin)) false) signed_in in
  PrivateRoute.PrivateRoute (PrivateRoute.mkProps "EditProfile" false false)
    (AuthContext.useAuth r.1.1) edit_profile
  = PrivateRoute.Navigate "/login" (Some edit_profile) true.
Proof.
  apply (logout_closes_protected_routes
           (AuthContext.mkState (Some (alice RoleAdmin)) false) signed_in
           (PrivateRoute.mkProps "EditProfile" false false) edit_profile eq_refl).
Defined.

(** ** Topic page: the rest of the handlers *)

Section MoreTopicFacts.

Import TopicDetail.

Variable createReply : Z → string → option Reply.t.


(** X20. What a reply that reaches the backend does to the page.  When the
    call resolves, the new reply is appended after the ones shown, the draft
    is cleared, and the topic is the old one with its reply counter one
    higher: every other field of the topic is as it was.  When the call
    rejects, the replies, the topic and the draft are kept, so the user can
    try again.  Either way the page is no longer submitting. *)
Theorem reply_outcome (auth : AuthContext.Value) (st : State) (t : Topic.t) :
  topic st = Some t →
  AuthContext.v_isAuthenticated auth = true →
  blank (replyContent st) = false →
  Topic.is_locked t = false ∨ AuthContext.v_isModerator auth = true →
  let r := handleSubmitReply createReply auth st in
  match createReply (Topic.id t) (replyContent st) with
  | Some newReply =>
      replies r.1 = replies st ++ [newReply] ∧
      replyContent r.1 = "" ∧
      ∃ t', topic r.1 = Some t' ∧
            Topic.replies_count t' = (Topic.replies_count t + 1)%Z ∧
            Topic.id t' = Topic.id t ∧
            Topic.title t' = Topic.title t ∧
            Topic.content t' = Topic.content t ∧
            Topic.category t' = Topic.category t ∧
            Topic.views t' = Topic.views t ∧
            Topic.is_pinned t' = Topic.is_pinned t ∧
            Topic.is_locked t' = Topic.is_locked t ∧
            Topic.author t' = Topic.author t ∧
            Topic.created_at t' = Topic.created_at t ∧
            Topic.updated_at t' = Topic.updated_at t ∧
            Topic.last_reply t' = Topic.last_reply t
  | None =>
      r.1 = mkState (topic st) (replies st) (replyContent st) false
  end ∧
  submitting r.1 = false.
Proof.
  intros Ht Ha Hb Hopen. unfold handleSubmitReply. rewrite Ht, Ha, Hb. simpl.
  assert (Topic.is_locked t && negb (AuthContext.v_isModerator auth) = false)
    as -> by (destruct Hopen as [-> | ->]; [done | apply andb_false_r]).
  destruct (createReply (Topic.id t) (replyContent st)); simpl.
  - repeat split. eexists. by repeat split.
  - done.
Qed.

End MoreTopicFacts.


Lemma reply_outcome_witness :
  let auth := AuthContext.useAuth
                (AuthContext.mkState (Some (alice RoleUser)) false) in
  let st := TopicDetail.mkState (Some open_topic) [] "Frieren!" false in
  (TopicDetail.handleSubmitReply (λ _ _, None) auth st).1 = st.
Proof.
  intros auth st.
  destruct (reply_outcome (λ _ _, None) auth st open_topic eq_refl eq_refl
              eq_refl (or_introl eq_refl)) as [Hst _].
  exact Hst.
Defined.

Section TopicControlFacts.

Import TopicDetail.

(** X21. Who sees the controls of a topic page, with the flags the session
    context derives.  The Delete button never appears without the Edit
    button; both appear exactly when a user is signed in, a topic is loaded,
    and the user wrote the topic or is a moderator or an admin; a visitor who
    is not signed in sees no control on the topic or on any reply. *)
Theorem topic_controls_policy (s : AuthContext.State) (st : State) :
  let auth := AuthContext.useAuth s in
  topic_controls auth st ≠ EditOnly ∧
  (topic_controls auth st = EditAndDelete ↔
     ∃ u t, AuthContext.user s = Some u ∧ topic st = Some t ∧
            (User.id u = User.id (Topic.author t) ∨
             User.role u = RoleModerator ∨ User.role u = RoleAdmin)) ∧
  (AuthContext.user s = None →
     topic_controls auth st = NoControls ∧
     ∀ reply, reply_controls auth reply = false).
Proof.
  unfold topic_controls, canEditTopic, canDeleteTopic, reply_controls,
    AuthContext.useAuth, AuthContext.isModerator, AuthContext.role_is. simpl.
  destruct (AuthContext.user s) as [u|]; [|split; [done|]; split; [|done]].
  2:{ split; [done|]. by intros (? & ? & ? & _). }
  destruct (topic st) as [t|].
  2:{ split; [done|]. split; [|done]. split; [done|].
      by intros (? & ? & _ & ? & _). }
  split; [|split; [|done]].
  - by destruct (_ || _).
  - destruct (Z.eqb_spec (User.id u) (User.id (Topic.author t))) as [Heq|Hne];
      simpl.
    + split; [|done]. intros _. exists u, t. auto.
    + destruct (User.role u) eqn:Hrole; simpl; split; try done.
      * intros (u' & t' & [= <-] & [= <-] & [?|[?|?]]); congruence.
      * intros _. exists u, t. auto.
      * intros _. exists u, t. auto.
Qed.

(** X22. Deleting a topic needs a loaded topic and a confirmation: without
    a topic nothing is even asked, and with the question declined nothing is
    called, shown or navigated.  Once confirmed there is exactly one delete
    call, for the loaded topic; the page goes to [/forum] only when that call
    succeeds, and stays with an error toast when it fails. *)
Theorem delete_topic_needs_confirmation (be : Backend) (confirmed : bool)
    (st : State) :
  let ui := handleDeleteTopic be confirmed st in
  (topic st = None → ui = mkUi [] [] [] []) ∧
  (confirmed = false →
     ui_calls ui = [] ∧ ui_navigations ui = [] ∧ ui_toasts ui = []) ∧
  (∀ t, topic st = Some t → confirmed = true →
     ui_calls ui = [CallDeleteTopic (Topic.id t)] ∧
     (deleteTopic be (Topic.id t) = true →
        ui_navigations ui = ["/forum"] ∧ ui_toasts ui = [topic_deleted]) ∧
     (deleteTopic be (Topic.id t) = false →
        ui_navigations ui = [] ∧ ui_toasts ui = [topic_delete_failed])).
Proof.
  unfold handleDeleteTopic. split; [|split].
  - by intros ->.
  - intros ->. by destruct (topic st).
  - intros t -> ->. by destruct (deleteTopic be (Topic.id t)).
Qed.

End TopicControlFacts.

Lemma topic_controls_policy_witness :
  TopicDetail.topic_controls
    (AuthContext.useAuth (AuthContext.mkState (Some (alice RoleModerator)) false))
    (TopicDetail.mkState (Some open_topic) [] "" false)
  = TopicDetail.EditAndDelete.
Proof.
  destruct (topic_controls_policy
              (AuthContext.mkState (Some (alice RoleModerator)) false)
              (TopicDetail.mkState (Some open_topic) [] "" false))
    as (_ & Hiff & _).
  apply Hiff. exists (alice RoleModerator), open_topic.
  split; [reflexivity|]. split; [reflexivity|]. left. reflexivity.
Defined.

Lemma delete_topic_needs_confirmation_witness :
  TopicDetail.handleDeleteTopic failing_backend true
    (TopicDetail.mkState (Some open_topic) [] "" false)
  = mkUi [TopicDetail.topic_delete_failed] []
         ["Are you sure you want to delete this topic?"] [CallDeleteTopic 4].
Proof.
  destruct (delete_topic_needs_confirmation failing_backend true
              (TopicDetail.mkState (Some open_topic) [] "" false))
    as (_ & _ & Hyes).
  destruct (Hyes open_topic eq_refl eq_refl) as (_ & _ & Hfail).
  destruct (Hfail eq_refl) as [_ _]. reflexivity.
Defined.

(** ** Article page *)

Section ArticleFacts.

Import ArticleDetail.

Variable be : Backend.
Variable auth : AuthContext.Value.


(** X24. A comment that is posted goes to the top of the list, above the
    comments already shown and without changing them, and the draft is
    cleared; when the post fails the list and the draft are kept.  A blank
    draft, or a visitor who is not signed in, calls nothing. *)
Theorem comment_goes_on_top (st : State) (a : Article.t) :
  article st = Some a →
  let r := handleSubmitComment be auth st in
  (AuthContext.v_isAuthenticated auth = true →
   TopicDetail.blank (commentContent st) = false →
     ui_calls r.2 = [CallCreateComment (commentContent st) (Article.id a)] ∧
     match createComment be (commentContent st) (Article.id a) with
     | Some newComment =>
         comments r.1 = newComment :: comments st ∧ commentContent r.1 = ""
     | None =>
         comments r.1 = comments st ∧ commentContent r.1 = commentContent st
     end ∧
     submitting r.1 = false) ∧
  (AuthContext.v_isAuthenticated auth = false ∨
   TopicDetail.blank (commentContent st) = true →
     r.1 = st ∧ ui_calls r.2 = []).
Proof.
  intros Ha. unfold handleSubmitComment. rewrite Ha. split.
  - intros -> ->. simpl.
    by destruct (createComment be (commentContent st) (Article.id a)).
  - intros [-> | Hb]; [done|].
    destruct (AuthContext.v_isAuthenticated auth); simpl; [|done].
    by rewrite Hb.
Qed.

(** X25. A reply that is posted is attached to the top-level comments
    with the replied-to id and to nothing else: the list keeps its length,
    its ids and their order, a comment with another id is untouched, and a
    comment with that id gains the new reply after its other replies.  When
    no top-level comment has the id, the list is exactly as before, although
    the success toast is shown. *)
Theorem reply_attaches_to_its_comment (commentId : Z) (st : State)
    (newReply : Comment.t) :
  AuthContext.v_isAuthenticated auth = true →
  TopicDetail.blank (replyContent st) = false →
  replyToComment be commentId (replyContent st) = Some newReply →
  let r := handleReply be auth commentId st in
  Comment.id <$> comments r.1 = Comment.id <$> comments st ∧
  (∀ i c, comments st !! i = Some c →
     (Comment.id c ≠ commentId → comments r.1 !! i = Some c) ∧
     (Comment.id c = commentId →
        ∃ c', comments r.1 !! i = Some c' ∧
              Comment.replies c' = Comment.replies c ++ [newReply] ∧
              Comment.content c' = Comment.content c ∧
              Comment.likes c' = Comment.likes c)) ∧
  ((∀ c, c ∈ comments st → Comment.id c ≠ commentId) →
     comments r.1 = comments st) ∧
  ui_toasts r.2 = [success "Reply posted successfully."] ∧
  replyContent r.1 = "" ∧ replyingTo r.1 = None.
Proof.
  intros Ha Hb Hcall. unfold handleReply. rewrite Ha, Hb, Hcall. simpl.
  split; [|split; [|split; [|done]]].
  - rewrite <- list_fmap_compose. apply list_fmap_ext. intros i c _. simpl.
    by destruct (Comment.id c =? commentId)%Z.
  - intros i c Hc. rewrite list_lookup_fmap, Hc. simpl.
    destruct (Z.eqb_spec (Comment.id c) commentId) as [Heq|Hne].
    + split; [done|]. intros _. eexists. by repeat split.
    + split; [done|]. by intros ?.
  - intros Hnone. rewrite <- (list_fmap_id (comments st)) at 2.
    apply list_fmap_ext. intros i c Hc. simpl.
    destruct (Z.eqb_spec (Comment.id c) commentId) as [Heq|Hne]; [|done].
    destruct (Hnone c); [|done]. by eapply list_elem_of_lookup_2.
Qed.

(** X26. Deleting a comment asks first.  When the question is declined,
    or the delete call fails, the list is unchanged (and in the first case
    nothing is called).  When the call succeeds, the comments left are
    exactly the ones with another id, in their old order. *)
Theorem delete_comment_filters (confirmed : bool) (commentId : Z) (st : State) :
  let r := handleDeleteComment be confirmed commentId st in
  (confirmed = false → r.1 = st ∧ ui_calls r.2 = [] ∧ ui_toasts r.2 = []) ∧
  (confirmed = true → deleteComment be commentId = false →
     r.1 = st ∧ ui_calls r.2 = [CallDeleteComment commentId]) ∧
  (confirmed = true → deleteComment be commentId = true →
     (∀ c, c ∈ comments r.1 ↔ c ∈ comments st ∧ Comment.id c ≠ commentId) ∧
     comments r.1 `sublist_of` comments st ∧
     article r.1 = article st ∧
     ui_calls r.2 = [CallDeleteComment commentId]) ∧
  ui_confirms r.2 = ["Are you sure you want to delete this comment?"].
Proof.
  unfold handleDeleteComment. split; [|split; [|split]].
  - by intros ->.
  - by intros -> ->.
  - intros -> ->. simpl. split; [|split; [|done]].
    + intros c. rewrite list_elem_of_filter. tauto.
    + apply sublist_filter.
  - destruct confirmed; [destruct (deleteComment be commentId)|]; done.
Qed.

(** Liking a comment touches the like flag and count of the top-level
    comments with that id and nothing else. *)
Lemma like_comment_keeps_list (commentId : Z) (st : State) :
  Comment.id <$> comments (handleLikeComment be auth commentId st).1
  = Comment.id <$> comments st ∧
  Comment.replies <$> comments (handleLikeComment be auth commentId st).1
  = Comment.replies <$> comments st.
Proof.
  unfold handleLikeComment.
  destruct (AuthContext.v_isAuthenticated auth); simpl; [|done].
  destruct (likeComment be commentId) as [[liked likes_count]|]; simpl; [|done].
  rewrite <- !list_fmap_compose.
  split; apply list_fmap_ext; intros i c _; simpl;
    by destruct (Comment.id c =? commentId)%Z.
Qed.

End ArticleFacts.

(** ** Forum: the pagination bar *)

Section ForumFacts.

Import Forum.

Local Open Scope Z_scope.

(** The pages on the bar: the first five when the current page is one of
    the first three, otherwise the window of two pages around the current
    one, cut at the last page. *)
Lemma page_buttons_elem (currentPage totalPages p : Z) :
  1 ≤ currentPage ≤ totalPages →
  1 < totalPages →
  p ∈ page_buttons currentPage totalPages ↔
    (currentPage ≤ 3 ∧ 1 ≤ p ≤ Z.min 5 totalPages) ∨
    (3 < currentPage ∧ currentPage - 2 ≤ p ≤ Z.min (currentPage + 2) totalPages).
Proof.
  intros Hcp Htp. unfold page_buttons, page_at.
  destruct (Z.gtb_spec totalPages 1) as [_|?]; [|lia].
  rewrite list_elem_of_omap. setoid_rewrite elem_of_seqZ.
  destruct (Z.leb_spec currentPage 3) as [Hle|Hgt].
  - split.
    + intros (i & Hi & Hp).
      destruct (Z.gtb_spec (i + 1) totalPages); [done|].
      injection Hp as <-. lia.
    + intros [[_ Hp]|?]; [|lia]. exists (p - 1). split; [lia|].
      destruct (Z.gtb_spec (p - 1 + 1) totalPages); [lia|]. f_equal. lia.
  - split.
    + intros (i & Hi & Hp).
      destruct (Z.gtb_spec (currentPage - 2 + i) totalPages); [done|].
      injection Hp as <-. lia.
    + intros [?|[_ Hp]]; [lia|]. exists (p - currentPage + 2). split; [lia|].
      destruct (Z.gtb_spec (currentPage - 2 + (p - currentPage + 2)) totalPages);
        [lia|]. f_equal. lia.
Qed.

(** X27. With the current page between 1 and the last page, every numbered
    button of the bar is a page between 1 and the last page, the current page
    is among them, and the bar shows the first five pages while the current
    page is at most 3 and otherwise the pages from two before to two after
    the current one, as far as they exist. *)
Theorem page_buttons_in_range (currentPage totalPages : Z) :
  1 ≤ currentPage ≤ totalPages →
  1 < totalPages →
  (∀ p, p ∈ page_buttons currentPage totalPages → 1 ≤ p ≤ totalPages) ∧
  currentPage ∈ page_buttons currentPage totalPages ∧
  (∀ p, p ∈ page_buttons currentPage totalPages ↔
     (currentPage ≤ 3 ∧ 1 ≤ p ≤ Z.min 5 totalPages) ∨
     (3 < currentPage ∧
      currentPage - 2 ≤ p ≤ Z.min (currentPage + 2) totalPages)).
Proof.
  intros Hcp Htp. split; [|split].
  - intros p Hp%page_buttons_elem; lia.
  - apply page_buttons_elem; lia.
  - intros p. by apply page_buttons_elem.
Qed.

(** X28. The numbered buttons come in increasing order, without repeats,
    and there are never more than five; with a single page, or none, the bar
    has no button at all. *)
Theorem page_buttons_sorted (currentPage totalPages : Z) :
  StronglySorted Z.lt (page_buttons currentPage totalPages) ∧
  (length (page_buttons currentPage totalPages) ≤ 5)%nat ∧
  (totalPages ≤ 1 → page_buttons currentPage totalPages = []).
Proof.
  unfold page_buttons.
  destruct (Z.gtb_spec totalPages 1) as [Htp|Htp].
  2:{ split; [constructor|]. split; [simpl; lia | done]. }
  split; [|split; [|lia]].
  - assert (Z.min 5 totalPages = 2 ∨ Z.min 5 totalPages = 3 ∨
            Z.min 5 totalPages = 4 ∨ Z.min 5 totalPages = 5) as Hn by lia.
    unfold page_at.
    destruct Hn as [-> | [-> | [-> | ->]]];
      destruct (Z.leb_spec currentPage 3); simpl;
      repeat match goal with
        | |- context [(?a >? ?b)] => destruct (Z.gtb_spec a b)
        end;
      first [exfalso; lia | repeat constructor; lia].
  - assert (Z.min 5 totalPages = 2 ∨ Z.min 5 totalPages = 3 ∨
            Z.min 5 totalPages = 4 ∨ Z.min 5 totalPages = 5) as Hn by lia.
    destruct Hn as [-> | [-> | [-> | ->]]]; simpl;
      repeat match goal with
        | |- context [if ?b then None else Some _] => destruct b
        end; simpl; lia.
Qed.

(** X29. No click on the bar leaves the range: from a current page
    between 1 and the last page, Previous, Next and every numbered button
    either do nothing (disabled or not shown) or select a page between 1 and
    the last page; Previous and Next move by exactly one page. *)
Theorem click_stays_in_range (c : Click) (currentPage totalPages p : Z) :
  1 ≤ currentPage ≤ totalPages →
  click c currentPage totalPages = Some p →
  1 ≤ p ≤ totalPages ∧
  (c = Previous → p = currentPage - 1) ∧
  (c = Next → p = currentPage + 1).
Proof.
  intros Hcp. unfold click, previous_disabled, next_disabled.
  destruct (Z.gtb_spec totalPages 1) as [Htp|Htp]; [|done].
  destruct c as [| |page].
  - destruct (Z.eqb_spec currentPage 1); [done|]. intros [= <-].
    split; [lia|]. done.
  - destruct (Z.eqb_spec currentPage totalPages); [done|]. intros [= <-].
    split; [lia|]. done.
  - case_bool_decide as Hin; [|done]. intros [= <-].
    apply page_buttons_elem in Hin; [|done..]. split; [lia|]. done.
Qed.

End ForumFacts.

Lemma page_buttons_in_range_witness :
  Forum.page_buttons 4 4 = [2; 3; 4]%Z ∧
  (4 ∈ Forum.page_buttons 4 4)%Z.
Proof.
  split; [reflexivity|].
  destruct (page_buttons_in_range 4 4) as (_ & Hin & _); [lia | lia |].
  exact Hin.
Defined.

Lemma page_buttons_sorted_witness : Forum.page_buttons 1 1 = [].
Proof.
  destruct (page_buttons_sorted 1 1) as (_ & _ & Hnone). apply Hnone. lia.
Defined.

Lemma click_stays_in_range_witness :
  (1 ≤ 8 ≤ 9)%Z ∧ Forum.click Forum.Next 7 9 = Some 8%Z.
Proof.
  split; [|reflexivity].
  destruct (click_stays_in_range Forum.Next 7 9 8) as [Hr _];
    [lia | reflexivity |].
  exact Hr.
Defined.


Lemma comment_goes_on_top_witness :
  let st := ArticleDetail.mkState (Some an_article) [a_comment 1 "first"]
              "second" None "" false in
  ArticleDetail.comments
    (ArticleDetail.handleSubmitComment friendly_backend a_member st).1
  = [a_comment 100 "second"; a_comment 1 "first"].
Proof.
  intros st.
  destruct (comment_goes_on_top friendly_backend a_member st an_article eq_refl)
    as [Hpost _].
  destruct (Hpost eq_refl eq_refl) as (_ & [Hcs _] & _). exact Hcs.
Defined.

Lemma reply_attaches_to_its_comment_witness :
  let st := ArticleDetail.mkState (Some an_article)
              [a_comment 1 "first"; a_comment 2 "second"] "" (Some 2%Z) "me too"
              false in
  Comment.id <$> ArticleDetail.comments
                   (ArticleDetail.handleReply friendly_backend a_member 2 st).1
  = [1; 2]%Z.
Proof.
  intros st.
  destruct (reply_attaches_to_its_comment friendly_backend a_member 2 st
              (a_comment 100 "me too") eq_refl eq_refl eq_refl) as [Hids _].
  exact Hids.
Defined.

Lemma delete_comment_filters_witness :
  let st := ArticleDetail.mkState (Some an_article)
              [a_comment 1 "first"; a_comment 2 "second"] "" None "" false in
  ArticleDetail.comments
    (ArticleDetail.handleDeleteComment friendly_backend true 1 st).1
  `sublist_of` [a_comment 1 "first"; a_comment 2 "second"].
Proof.
  intros st.
  destruct (delete_comment_filters friendly_backend true 1 st)
    as (_ & _ & Hdel & _).
  destruct (Hdel eq_refl eq_refl) as (_ & Hsub & _). exact Hsub.
Defined.

(** ** Topic form *)

Section TopicFormFacts.

Import CreateTopic.

(** Edits only add or overwrite fields: a field that is defined stays
    defined through any run of edits. *)
Lemma edits_keep_fields (edits : list (string * string))
    (f : gmap string string) (k : string) :
  is_Some (f !! k) →
  is_Some (foldl (λ f e, handleChange e.1 e.2 f) f edits !! k).
Proof.
  revert f. induction edits as [|[field value] edits IH]; intros f Hk; simpl;
    [done|].
  apply IH. unfold handleChange. apply lookup_insert_is_Some.
  destruct (decide (field = k)); auto.
Qed.

(** X30. No run of edits can break the topic form.  After any edits made
    through [handleChange], starting from the empty form, [handleSubmit] does
    not throw; it answers with the validation toast and no call when the
    title or the content is blank or the category is empty, and otherwise
    calls [createTopic] exactly once with the form as edited, going to the
    new topic's page only when that call succeeds. *)
Theorem edited_form_submits_safely (be : Backend) (edits : list (string * string)) :
  let formData := foldl (λ f e, handleChange e.1 e.2 f) initial_form edits in
  ∃ title content category ui,
    formData !! "title" = Some title ∧
    formData !! "content" = Some content ∧
    formData !! "category" = Some category ∧
    handleSubmit be formData = inl ui ∧
    (TopicDetail.blank title = true ∨ TopicDetail.blank content = true ∨
     category = "" →
       ui = mkUi [validation_error] [] [] []) ∧
    (TopicDetail.blank title = false → TopicDetail.blank content = false →
     category ≠ "" →
       ui_calls ui = [CallCreateTopic formData] ∧
       match createTopic be formData with
       | inl newTopic =>
           ui_navigations ui = ["/forum/topics/" +:+ pretty (Topic.id newTopic)] ∧
           ui_toasts ui = [topic_created]
       | inr error =>
           ui_navigations ui = [] ∧ length (ui_toasts ui) = 1%nat
       end).
Proof.
  intros formData.
  destruct (edits_keep_fields edits initial_form "title") as [title Ht];
    [done|].
  destruct (edits_keep_fields edits initial_form "content") as [content Hc];
    [done|].
  destruct (edits_keep_fields edits initial_form "category") as [category Hg];
    [done|].
  fold formData in Ht, Hc, Hg.
  exists title, content, category. unfold handleSubmit. rewrite Ht, Hc, Hg.
  simpl.
  destruct (TopicDetail.blank title) eqn:Hbt.
  { eexists. repeat split; try done. }
  destruct (TopicDetail.blank content) eqn:Hbc.
  { eexists. repeat split; try done. }
  destruct category as [|c r]; simpl.
  { eexists. repeat split; try done. }
  destruct (createTopic be formData) as [newTopic|error]; eexists;
    (repeat split; try done); intros [?|[?|?]]; done.
Qed.

End TopicFormFacts.

Lemma edited_form_submits_safely_witness :
  let form := foldl (λ f e, CreateTopic.handleChange e.1 e.2 f)
                CreateTopic.initial_form
                [("title", "Hi"); ("content", "There"); ("category", "Anime")] in
  ∃ ui, CreateTopic.handleSubmit friendly_backend form = inl ui ∧
        ui_navigations ui = ["/forum/topics/4"].
Proof.
  intros form.
  destruct (edited_form_submits_safely friendly_backend
              [("title", "Hi"); ("content", "There"); ("category", "Anime")])
    as (title & content & category & ui & Ht & Hc & Hg & Hsub & _ & Hok).
  assert (title = "Hi") as -> by (vm_compute in Ht; congruence).
  assert (content = "There") as -> by (vm_compute in Hc; congruence).
  assert (category = "Anime") as -> by (vm_compute in Hg; congruence).
  destruct (Hok eq_refl eq_refl) as [_ Hnav]; [discriminate|].
  exists ui. split; [exact Hsub|]. exact (proj1 Hnav).
Defined.
